(** * funtastic: the algebraic containers and the core combinators

    A shallow embedding of [core.ts] ([is], [curry], [compose], [match]),
    [optional.ts], [result.ts] and [effect.ts].

    JavaScript is untyped at run time, and the library branches on run-time
    types everywhere, so values live in one universe [value].  Caller-supplied
    functions are Rocq functions into the monad [M]: they may change a state of
    the caller's choosing and they may throw.  A function that is itself a
    value (held by a container, listed as a [match] handler) is a reference
    [fn_ref] that the host environment [Host] resolves. *)

From Stdlib Require Import ZArith List String Ascii Bool Lia DecimalString
  Permutation.
Import ListNotations.
Open Scope string_scope.
Open Scope Z_scope.
Local Set Warnings "-register-all".

(** ** Run-time values *)

(** The global constructors the library uses as type tags or meets through
    [instanceof]. *)
Inductive builtin : Type :=
| cBigInt | cBoolean | cFunction | cNumber | cObject | cSymbol | cString
| cArray | cError | cTypeError | cPromise.

(** Function identities.  [Class] is a class or a [function] declaration: its
    [prototype] is an object whose [constructor] is the class again; [methods]
    lists the names of the methods on that prototype.  [Closure] is an arrow
    function: it has no [prototype]. *)
Inductive fn_ref : Type :=
| Builtin (c : builtin)
| Class (name : string) (methods : list string)
| Closure (name : string) (id : nat).

(** [SymFunctor] is [export const Functor = Symbol('functor')] of
    [algebraic.ts]. *)
Inductive symbol : Type :=
| SymFunctor
| SymUser (id : nat).

(** Numbers are the integers among the doubles, [VNaN] and the two
    infinities; fractions and the negative zero are outside the model.
    [VNumber n] is the double of value [n]: the arithmetic below rounds its
    results to the doubles.  Objects carry their prototype chain as
    the list of the constructors on it, nearest first, and their own
    enumerable properties in insertion order.  [VError] is an instance of
    [Error] ([is_type = false]) or of [TypeError]; its [message] is not
    enumerable.  A promise is settled, fulfilled with a value or rejected
    with a reason, or it waits for a thenable: [VPending t] is a promise that
    was resolved with the object [t], whose [then] method decides how it
    settles; that decision is outside the model. *)
Inductive value : Type :=
| VUndefined
| VNull
| VBoolean (b : bool)
| VNumber (n : Z)
| VNaN
| VInfinity (negative : bool)
| VBigInt (n : Z)
| VString (s : string)
| VSymbol (s : symbol)
| VFunction (f : fn_ref)
| VArray (xs : list value)
| VObject (proto : list fn_ref) (props : list (string * value))
| VError (is_type : bool) (message : string)
| VPromise (fulfilled : bool) (v : value)
| VPending (thenable : value).

Inductive jstype : Type :=
| TUndefined | TObject | TBoolean | TNumber | TBigInt | TString | TSymbol
| TFunction.

Definition jstype_eqb (a b : jstype) : bool :=
  match a, b with
  | TUndefined, TUndefined | TObject, TObject | TBoolean, TBoolean
  | TNumber, TNumber | TBigInt, TBigInt | TString, TString
  | TSymbol, TSymbol | TFunction, TFunction => true
  | _, _ => false
  end.

(** The [typeof] operator. *)
Definition typeof (v : value) : jstype :=
  match v with
  | VUndefined => TUndefined
  | VNull => TObject
  | VBoolean _ => TBoolean
  | VNumber _ | VNaN | VInfinity _ => TNumber
  | VBigInt _ => TBigInt
  | VString _ => TString
  | VSymbol _ => TSymbol
  | VFunction _ => TFunction
  | VArray _ | VObject _ _ | VError _ _ | VPromise _ _ | VPending _ => TObject
  end.

(** ToBoolean. *)
Definition truthy (v : value) : bool :=
  match v with
  | VUndefined | VNull | VNaN => false
  | VBoolean b => b
  | VNumber n | VBigInt n => negb (n =? 0)
  | VString s => negb (s =? "")%string
  | _ => true
  end.

Definition builtin_eqb (a b : builtin) : bool :=
  match a, b with
  | cBigInt, cBigInt | cBoolean, cBoolean | cFunction, cFunction
  | cNumber, cNumber | cObject, cObject | cSymbol, cSymbol
  | cString, cString | cArray, cArray | cError, cError
  | cTypeError, cTypeError | cPromise, cPromise => true
  | _, _ => false
  end.

Fixpoint names_eqb (a b : list string) : bool :=
  match a, b with
  | [], [] => true
  | x :: a', y :: b' => (x =? y)%string && names_eqb a' b'
  | _, _ => false
  end.

(** Identity of functions ([===] on two functions). *)
Definition fn_ref_eqb (f g : fn_ref) : bool :=
  match f, g with
  | Builtin a, Builtin b => builtin_eqb a b
  | Class n ms, Class n' ms' => (n =? n')%string && names_eqb ms ms'
  | Closure n i, Closure n' i' => (n =? n')%string && Nat.eqb i i'
  | _, _ => false
  end.

Definition builtin_name (c : builtin) : string :=
  match c with
  | cBigInt => "BigInt" | cBoolean => "Boolean" | cFunction => "Function"
  | cNumber => "Number" | cObject => "Object" | cSymbol => "Symbol"
  | cString => "String" | cArray => "Array" | cError => "Error"
  | cTypeError => "TypeError" | cPromise => "Promise"
  end.

(** The [name] property of a function. *)
Definition fn_name (f : fn_ref) : string :=
  match f with
  | Builtin c => builtin_name c
  | Class n _ => n
  | Closure n _ => n
  end.

(** The constructors on the prototype chain of a value, nearest first;
    primitives are looked up through their wrapper.  [undefined] and [null]
    have none. *)
Definition proto_chain (v : value) : list fn_ref :=
  match v with
  | VUndefined | VNull => []
  | VBoolean _ => [Builtin cBoolean; Builtin cObject]
  | VNumber _ | VNaN | VInfinity _ => [Builtin cNumber; Builtin cObject]
  | VBigInt _ => [Builtin cBigInt; Builtin cObject]
  | VString _ => [Builtin cString; Builtin cObject]
  | VSymbol _ => [Builtin cSymbol; Builtin cObject]
  | VFunction _ => [Builtin cFunction; Builtin cObject]
  | VArray _ => [Builtin cArray; Builtin cObject]
  | VObject proto _ => proto
  | VError false _ => [Builtin cError; Builtin cObject]
  | VError true _ => [Builtin cTypeError; Builtin cError; Builtin cObject]
  | VPromise _ _ | VPending _ => [Builtin cPromise; Builtin cObject]
  end.

(** [x instanceof t] for a constructor [t]: false on primitives, otherwise
    [t.prototype] is on the chain of [x]. *)
Definition instanceof (x : value) (t : fn_ref) : bool :=
  match typeof x with
  | TObject | TFunction => existsb (fn_ref_eqb t) (proto_chain x)
  | _ => false
  end.

Fixpoint lookup (k : string) (props : list (string * value)) : option value :=
  match props with
  | [] => None
  | (k', v) :: rest => if (k =? k')%string then Some v else lookup k rest
  end.

(** Whether the prototype of a constructor has a method of that name, for
    the two names the library depends on: of the built-in prototypes only
    [Array.prototype] has a [map] and only [Promise.prototype] a [then]. *)
Definition has_method (m : string) (f : fn_ref) : bool :=
  match f with
  | Class _ ms => existsb (String.eqb m) ms
  | Builtin cArray => (m =? "map")%string
  | Builtin cPromise => (m =? "then")%string
  | _ => false
  end.

(** ** Outcomes and the monad of caller-supplied code *)

Inductive outcome (A : Type) : Type :=
| Ok (a : A)
| Throw (e : value).
Arguments Ok {A} a.
Arguments Throw {A} e.

Definition type_error {A : Type} (message : string) : outcome A :=
  Throw (VError true message).

(** A computation over the caller's state [S]: it ends with a result or a
    thrown value, and a new state. *)
Definition M (S A : Type) : Type := S -> outcome A * S.

Definition ret {S A : Type} (a : A) : M S A := fun s => (Ok a, s).

Definition bindM {S A B : Type} (m : M S A) (k : A -> M S B) : M S B :=
  fun s =>
    match m s with
    | (Ok a, s') => k a s'
    | (Throw e, s') => (Throw e, s')
    end.

Definition lift {S A : Type} (o : outcome A) : M S A := fun s => (o, s).

Definition throw {S A : Type} (e : value) : M S A := lift (Throw e).

Declare Scope js_scope.
Delimit Scope js_scope with js.
Notation "x <- m ;; k" := (bindM m (fun x => k))
  (at level 61, m at next level, right associativity) : js_scope.
Open Scope js_scope.

(** The host environment: what a function reference does when called, and
    the text [Function.prototype.toString] gives for it. *)
Class Host (S : Type) : Type := {
  impl : fn_ref -> list value -> M S value;
  fn_text : fn_ref -> string
}.

(** Calling a value: [v(...args)]. *)
Definition call_value {S : Type} `{Host S} (v : value) (args : list value)
  : M S value :=
  match v with
  | VFunction f => impl f args
  | _ => throw (VError true "not a function")
  end.

(** ** [is] (core.ts) *)

(** [is(t, x)] answers with a boolean, or, when it takes [x] to be missing,
    with the predicate [fn] that still waits for it. *)
Inductive is_result : Type :=
| IsBool (b : bool)
| IsCurried (t : value).

(** ToBoolean of what [is] returned: a function is truthy. *)
Definition is_true (r : is_result) : bool :=
  match r with
  | IsBool b => b
  | IsCurried _ => true
  end.

(** ['map' in x && typeof x.map === 'function'] on an object other than
    [null]: an own property shadows the prototypes. *)
Definition has_map_function (x : value) : bool :=
  match x with
  | VObject proto props =>
      match lookup "map" props with
      | Some m => jstype_eqb (typeof m) TFunction
      | None => existsb (has_method "map") proto
      end
  | _ => existsb (has_method "map") (proto_chain x)
  end.

(** [typeof t.prototype === 'object' && t.prototype.constructor === t] for a
    function [t]; [Function.prototype] is itself a function. *)
Definition is_constructor (f : fn_ref) : bool :=
  match f with
  | Builtin cFunction => false
  | Builtin _ => true
  | Class _ _ => true
  | Closure _ _ => false
  end.

(** The inner [fn] of [is], the [switch] on [t]. *)
Definition is_fn (t x : value) : outcome bool :=
  match t with
  | VFunction (Builtin cBigInt) => Ok (jstype_eqb (typeof x) TBigInt)
  | VFunction (Builtin cBoolean) => Ok (jstype_eqb (typeof x) TBoolean)
  | VFunction (Builtin cFunction) => Ok (jstype_eqb (typeof x) TFunction)
  | VFunction (Builtin cNumber) => Ok (jstype_eqb (typeof x) TNumber)
  | VFunction (Builtin cObject) => Ok (jstype_eqb (typeof x) TObject)
  | VFunction (Builtin cSymbol) => Ok (jstype_eqb (typeof x) TSymbol)
  | VFunction (Builtin cString) => Ok (jstype_eqb (typeof x) TString)
  | VSymbol SymFunctor =>
      if jstype_eqb (typeof x) TObject then
        match x with
        | VNull => type_error "Cannot use 'in' operator to search for 'map' in null"
        | _ => Ok (has_map_function x)
        end
      else Ok false
  | VFunction (Builtin cArray) =>
      Ok (match x with VArray _ => true | _ => false end)
  | VUndefined => Ok (jstype_eqb (typeof x) TUndefined)
  | VNull => Ok (match x with VNull => true | _ => false end)
  | VFunction f =>
      if is_constructor f then Ok (instanceof x f)
      else Ok (jstype_eqb (typeof x) TFunction)
  | _ => Ok (jstype_eqb (typeof x) (typeof t))
  end.

(** [return typeof x === 'undefined' ? fn : fn(x)].  [is(t)] with one
    argument is [is_ t VUndefined] ([is] is a keyword here, hence [is_]). *)
Definition is_ (t x : value) : outcome is_result :=
  match typeof x with
  | TUndefined => Ok (IsCurried t)
  | _ =>
      match is_fn t x with
      | Ok b => Ok (IsBool b)
      | Throw e => Throw e
      end
  end.

(** A call of [is] used as a condition. *)
Definition test {S : Type} (r : outcome is_result) : M S bool :=
  match r with
  | Ok b => ret (is_true b)
  | Throw e => throw e
  end.

(** [a || b] used as a condition. *)
Definition orM {S : Type} (a b : M S bool) : M S bool :=
  c <- a ;; if c then ret true else b.

(** ** The operators the containers use *)

Definition obind {A B : Type} (o : outcome A) (k : A -> outcome B)
  : outcome B :=
  match o with
  | Ok a => k a
  | Throw e => Throw e
  end.

(** The decimal numeral of an integer. *)
Definition decimal (n : Z) : string := NilZero.string_of_int (Z.to_int n).

(** *** Numbers as doubles *)

(** The double nearest to an integer [z >= 0], ties to the even significand
    of 53 bits; the exponent is not bounded here. *)
Definition round53 (z : Z) : Z :=
  if z <? 2 ^ 53 then z
  else
    let ulp := 2 ^ (Z.log2 z - 52) in
    let q := z / ulp in
    let r := z mod ulp in
    let half := ulp / 2 in
    if (r <? half) || ((r =? half) && Z.even q) then q * ulp
    else (q + 1) * ulp.

(** The Number value of the real number [z]: a rounded magnitude of
    [2^1024] or more is an infinity. *)
Definition to_number (z : Z) : value :=
  let m := round53 (Z.abs z) in
  if 2 ^ 1024 <=? m then VInfinity (z <? 0) else VNumber (Z.sgn z * m).

(** [a + b] on two Number values. *)
Definition number_add (a b : value) : value :=
  match a, b with
  | VNumber m, VNumber n => to_number (m + n)
  | VInfinity x, VInfinity y => if Bool.eqb x y then VInfinity x else VNaN
  | VInfinity x, VNumber _ | VNumber _, VInfinity x => VInfinity x
  | _, _ => VNaN
  end.

(** The shortest decimal [c * 10^j] that reads back as the double [v]: the
    largest [j] for which a multiple of [10^j] lies between [low / 2] and
    [high / 2], the halfway points to the neighbours of [v], which belong to
    [v] when its significand is even ([closed]); of several multiples the
    one nearest to [v]. *)
Fixpoint shortest (v low high : Z) (closed : bool) (j : nat) : Z * nat :=
  let p := 2 * 10 ^ Z.of_nat j in
  let first := if closed then (low + p - 1) / p else low / p + 1 in
  let last := if closed then high / p else (high + p - 1) / p - 1 in
  if first <=? last then
    let t := (2 * v) / p in
    let below := 2 * v - t * p in
    let above := (t + 1) * p - 2 * v in
    let c :=
      if (first <=? t) && (t + 1 <=? last) then
        if below <? above then t
        else if above <? below then t + 1
        else if Z.even t then t else t + 1
      else if first <=? t then t else t + 1 in
    (c, j)
  else
    match j with
    | O => (v, O)
    | Datatypes.S j' => shortest v low high closed j'
    end.

Fixpoint zeros (n : nat) : string :=
  match n with
  | O => ""
  | Datatypes.S n' => "0" ++ zeros n'
  end.

(** Number::toString of a double [v >= 0] that is an integer: below [2^53]
    its numeral; above, the shortest digits that read back as [v], filled
    with zeros up to 21 digits and in exponent form beyond. *)
Definition double_text (v : Z) : string :=
  if v <? 2 ^ 53 then decimal v
  else
    let ulp := 2 ^ (Z.log2 v - 52) in
    let q := v / ulp in
    let gap := if q =? 2 ^ 52 then ulp / 2 else ulp in
    let '(c, j) := shortest v (2 * v - gap) (2 * v + ulp) (Z.even q)
                     (Z.to_nat (Z.log2 v / 3 + 1)) in
    let ds := decimal c in
    let k := String.length ds in
    let n := (k + j)%nat in
    if (n <=? 21)%nat then ds ++ zeros j
    else
      match ds with
      | String d rest =>
          String d (if (k =? 1)%nat then "" else "." ++ rest)
          ++ "e+" ++ decimal (Z.of_nat n - 1)
      | EmptyString => ""
      end.

(** ToString of [VNumber n]. *)
Definition number_text (n : Z) : string :=
  let v := round53 (Z.abs n) in
  let sign := if n <? 0 then "-" else "" in
  if 2 ^ 1024 <=? v then sign ++ "Infinity" else sign ++ double_text v.

Section Operators.
Context {S : Type} `{Host S}.

(** ToString, with the built-in [toString] of each kind of object.  A hole
    of an array join ([undefined], [null]) prints as nothing. *)
Fixpoint to_string (v : value) : outcome string :=
  match v with
  | VUndefined => Ok "undefined"
  | VNull => Ok "null"
  | VBoolean b => Ok (if b then "true" else "false")
  | VNumber n => Ok (number_text n)
  | VNaN => Ok "NaN"
  | VInfinity negative => Ok (if negative then "-Infinity" else "Infinity")
  | VBigInt n => Ok (decimal n)
  | VString s => Ok s
  | VSymbol _ => type_error "Cannot convert a Symbol value to a string"
  | VFunction f => Ok (fn_text f)
  | VArray xs =>
      (fix join (l : list value) : outcome string :=
         match l with
         | [] => Ok ""
         | a :: rest =>
             obind (match a with
                    | VUndefined | VNull => Ok ""
                    | _ => to_string a
                    end)
               (fun s =>
                  match rest with
                  | [] => Ok s
                  | _ => obind (join rest) (fun r => Ok (s ++ "," ++ r))
                  end)
         end) xs
  | VObject _ _ => Ok "[object Object]"
  | VError is_type m =>
      let name := if is_type then "TypeError" else "Error" in
      Ok (if (m =? "")%string then name else name ++ ": " ++ m)
  | VPromise _ _ | VPending _ => Ok "[object Promise]"
  end.

(** ToPrimitive: objects and functions go through their [toString]. *)
Definition to_primitive (v : value) : outcome value :=
  match v with
  | VFunction _ | VArray _ | VObject _ _ | VError _ _ | VPromise _ _
  | VPending _ =>
      obind (to_string v) (fun s => Ok (VString s))
  | _ => Ok v
  end.

(** ToNumeric of a primitive that is not a string. *)
Definition to_numeric (v : value) : outcome value :=
  match v with
  | VNull => Ok (VNumber 0)
  | VBoolean b => Ok (VNumber (if b then 1 else 0))
  | VNumber n => Ok (VNumber n)
  | VInfinity negative => Ok (VInfinity negative)
  | VBigInt n => Ok (VBigInt n)
  | VSymbol _ => type_error "Cannot convert a Symbol value to a number"
  | _ => Ok VNaN
  end.

(** [a + b]. *)
Definition js_add (a b : value) : outcome value :=
  obind (to_primitive a) (fun pa =>
  obind (to_primitive b) (fun pb =>
    match pa, pb with
    | VString _, _ | _, VString _ =>
        obind (to_string pa) (fun s =>
        obind (to_string pb) (fun t => Ok (VString (s ++ t))))
    | _, _ =>
        obind (to_numeric pa) (fun na =>
        obind (to_numeric pb) (fun nb =>
          match na, nb with
          | VBigInt m, VBigInt n => Ok (VBigInt (m + n))
          | VBigInt _, _ | _, VBigInt _ =>
              type_error "Cannot mix BigInt and other types"
          | _, _ => Ok (number_add na nb)
          end))
    end)).
End Operators.

(** [a && b]. *)
Definition js_and (a b : value) : value := if truthy a then b else a.

(** The characters of a string, each a string of its own. *)
Fixpoint chars (s : string) : list value :=
  match s with
  | EmptyString => []
  | String c rest => VString (String c EmptyString) :: chars rest
  end.

(** What [...v] yields inside an array literal. *)
Definition iterate (v : value) : outcome (list value) :=
  match v with
  | VArray xs => Ok xs
  | VString s => Ok (chars s)
  | _ => type_error "not iterable"
  end.

Definition digit_of (c : ascii) : option N :=
  let n := N_of_ascii c in
  if ((48 <=? n) && (n <=? 57))%N then Some (n - 48)%N else None.

Fixpoint digits (s : string) (acc : N) : option N :=
  match s with
  | EmptyString => Some acc
  | String c rest =>
      match digit_of c with
      | Some d => digits rest (acc * 10 + d)%N
      | None => None
      end
  end.

(** A property key that is an array index: a canonical decimal numeral
    below [2^32 - 1]. *)
Definition array_index (k : string) : option N :=
  match k with
  | EmptyString => None
  | String "0" EmptyString => Some 0%N
  | String "0" _ => None
  | _ =>
      match digits k 0 with
      | Some n => if (n <? 4294967295)%N then Some n else None
      | None => None
      end
  end.

Fixpoint insert_index (n : N) (kv : string * value)
    (l : list (N * (string * value))) : list (N * (string * value)) :=
  match l with
  | [] => [(n, kv)]
  | (m, e) :: rest =>
      if (n <? m)%N then (n, kv) :: l else (m, e) :: insert_index n kv rest
  end.

(** The own enumerable properties in the order the language enumerates them:
    array indices ascending, then the other keys as they were inserted. *)
Definition own_entries (props : list (string * value))
  : list (string * value) :=
  List.map snd
    (fold_left
       (fun acc kv =>
          match array_index (fst kv) with
          | Some n => insert_index n kv acc
          | None => acc
          end) props [])
  ++ filter (fun kv => match array_index (fst kv) with
                       | None => true
                       | Some _ => false
                       end) props.

(** [Object.keys]. *)
Definition own_keys (props : list (string * value)) : list string :=
  List.map fst (own_entries props).

Fixpoint indexed (i : nat) (xs : list value) : list (string * value) :=
  match xs with
  | [] => []
  | v :: rest => (decimal (Z.of_nat i), v) :: indexed (Datatypes.S i) rest
  end.

(** The properties [...v] copies inside an object literal. *)
Definition spread_entries (v : value) : list (string * value) :=
  match v with
  | VString s => indexed 0 (chars s)
  | VArray xs => indexed 0 xs
  | VObject _ props => own_entries props
  | _ => []
  end.

(** Defining a property: an existing key keeps its place and takes the new
    value, a new key goes last. *)
Fixpoint set_prop (k : string) (v : value) (props : list (string * value))
  : list (string * value) :=
  match props with
  | [] => [(k, v)]
  | (k', v') :: rest =>
      if (k =? k')%string then (k, v) :: rest
      else (k', v') :: set_prop k v rest
  end.

Definition assign (target src : list (string * value))
  : list (string * value) :=
  fold_left (fun acc kv => set_prop (fst kv) (snd kv) acc) src target.

(** [{...a, ...b}]. *)
Definition spread_object (a b : value) : value :=
  VObject [Builtin cObject]
    (assign (assign [] (spread_entries a)) (spread_entries b)).

(** ** The type tags *)

(** The global constructors as values, and the [Functor] symbol. *)
Definition BigInt : value := VFunction (Builtin cBigInt).
Definition Boolean : value := VFunction (Builtin cBoolean).
Definition Function : value := VFunction (Builtin cFunction).
Definition Number : value := VFunction (Builtin cNumber).
Definition Object : value := VFunction (Builtin cObject).
Definition Symbol : value := VFunction (Builtin cSymbol).
Definition String_ : value := VFunction (Builtin cString).
Definition Array : value := VFunction (Builtin cArray).
Definition Error : value := VFunction (Builtin cError).
Definition Promise : value := VFunction (Builtin cPromise).
Definition Functor : value := VSymbol SymFunctor.

(** [is(undefined, v) || is(null, v)], the test both containers use. *)
Definition nullish {S : Type} (v : value) : M S bool :=
  orM (test (is_ VUndefined v)) (test (is_ VNull v)).

(** The chain of tests of [concat], after the test on the receiver; it is
    the same text in [optional.ts] and in [result.ts].  The last test reads
    [is(Object, x) || is(Function)]: its second call has no [x]. *)
Definition concat_dispatch {S : Type} `{Host S} (held v : value)
  : M S value :=
  c <- test (is_ BigInt v) ;;
  if c then lift (js_add held v) else
  c <- test (is_ Number v) ;;
  if c then lift (js_add held v) else
  c <- test (is_ String_ v) ;;
  if c then lift (js_add held v) else
  c <- test (is_ Boolean v) ;;
  if c then ret (js_and held v) else
  c <- test (is_ Array v) ;;
  if c then
    a <- lift (iterate held) ;;
    b <- lift (iterate v) ;;
    ret (VArray (a ++ b))
  else
  c <- orM (test (is_ Object v)) (test (is_ Function VUndefined)) ;;
  if c then ret (spread_object held v) else ret v.

(** ** Optional (optional.ts) *)

Module Optional.

(** [constructor(readonly x: T)]. *)
Record t : Type := mk { x : value }.

Section Methods.
Context {S : Type} `{Host S}.

Definition of_ (v : value) : M S t :=
  c <- nullish v ;;
  if c then ret (mk VUndefined) else ret (mk v).

Definition map (o : t) (fn : value -> M S value) : M S t :=
  y <- fn (x o) ;;
  c <- nullish y ;;
  if c then ret (mk VUndefined) else ret (mk y).

Definition apply (o : t) (fn : t) : M S t :=
  c <- nullish (x fn) ;;
  if c then ret (mk VUndefined)
  else map o (fun a => call_value (x fn) [a]).

Definition bind (o : t) (fn : value -> M S t) : M S t :=
  r <- fn (x o) ;;
  let y := x r in
  c <- nullish y ;;
  if c then ret (mk VUndefined) else ret (mk y).

Definition concat (o : t) (v : value) : M S t :=
  c <- nullish (x o) ;;
  if c then ret (mk v)
  else r <- concat_dispatch (x o) v ;; ret (mk r).

(** [match({Some, None})]. *)
Definition match_ {R : Type} (o : t)
    (Some_ : value -> M S R) (None_ : M S R) : M S R :=
  c <- nullish (x o) ;;
  if c then None_ else Some_ (x o).
End Methods.

End Optional.

(** ** Result (result.ts) *)

Module Result.

(** [constructor(readonly x: T | Error)]. *)
Record t : Type := mk { x : value }.

Section Methods.
Context {S : Type} `{Host S}.

(** Both branches of [of] build the same object. *)
Definition of_ (v : value) : M S t :=
  c <- test (is_ Error v) ;;
  if c then ret (mk v) else ret (mk v).

Definition map (o : t) (fn : value -> M S value) : M S t :=
  c <- test (is_ Error (x o)) ;;
  if c then ret o
  else y <- fn (x o) ;; of_ y.

Definition apply (o : t) (fn : t) : M S t :=
  c <- test (is_ Error (x fn)) ;;
  if c then ret o
  else map o (fun a => call_value (x fn) [a]).

Definition bind (o : t) (fn : value -> M S t) : M S t :=
  c <- test (is_ Error (x o)) ;;
  if c then ret o else fn (x o).

Definition concat (o : t) (v : value) : M S t :=
  c <- nullish (x o) ;;
  if c then ret (mk v)
  else r <- concat_dispatch (x o) v ;; ret (mk r).

(** [match({Success, Error})]. *)
Definition match_ {R : Type} (o : t)
    (Success_ Error_ : value -> M S R) : M S R :=
  c <- test (is_ Error (x o)) ;;
  if c then Error_ (x o) else Success_ (x o).
End Methods.

End Result.

(** ** Effect (effect.ts) *)

Module Effect.

(** [private constructor(private fn: (...args: A) => T | Promise<T>)]. *)
Record t (S : Type) : Type := mk { fn : list value -> M S value }.
Arguments mk {S} fn.
Arguments fn {S} _ _.

Section Methods.
Context {S : Type} `{Host S}.

(** A thenable: an object, other than a promise, whose [then], its own or
    an inherited one, is a function. *)
Definition thenable (r : value) : bool :=
  match r with
  | VObject proto props =>
      match lookup "then" props with
      | Some m => jstype_eqb (typeof m) TFunction
      | None => existsb (has_method "then") proto
      end
  | _ => false
  end.

(** The values a promise follows when it is resolved with them, instead of
    being fulfilled with them: the promises and the thenables. *)
Definition follows (r : value) : bool :=
  match r with
  | VPromise _ _ | VPending _ => true
  | _ => thenable r
  end.

(** What a promise resolved with [r] becomes: it takes the state of a
    promise, it waits for a thenable, and it is fulfilled with anything
    else. *)
Definition resolve (r : value) : value :=
  match r with
  | VPromise _ _ | VPending _ => r
  | _ => if thenable r then VPending r else VPromise true r
  end.

(** [y.then(fn)].  A fulfilled promise hands its value to [fn] and the
    new promise settles with what [fn] does; a rejected one passes its
    reason on without calling [fn]; a promise that waits for a thenable
    keeps [fn] for the day it settles, and the new promise waits with it.
    The reaction is run when it is
    registered: the order of the reactions of one chain is kept, their
    interleaving with the caller's later code is not modelled.  On
    anything but a promise the call throws: [undefined] has no
    properties, and [Promise.prototype.then] refuses other receivers. *)
Definition then_ (y : value) (fn : value -> M S value) : M S value :=
  match y with
  | VPromise true v =>
      fun s =>
        match fn v s with
        | (Ok r, s') => (Ok (resolve r), s')
        | (Throw e, s') => (Ok (VPromise false e), s')
        end
  | VPromise false e => ret (VPromise false e)
  | VPending t => ret (VPending t)
  | VUndefined | VNull =>
      throw (VError true "Cannot read properties of undefined (reading 'then')")
  | _ => throw (VError true "then called on incompatible receiver")
  end.

Definition of_ (fn : list value -> M S value) : t S := mk fn.

Definition map (e : t S) (fn : value -> M S value) : t S :=
  mk (fun args =>
        y <- Effect.fn e args ;;
        c <- test (is_ Promise y) ;;
        if c then then_ y fn else fn y).

Definition call (e : t S) (args : list value) : M S value :=
  Effect.fn e args.
End Methods.

End Effect.

(** ** curry (core.ts) *)

(** What a call of the curried function gives back: the result of [fn], or
    the arrow function [(...next) => curried.apply(this, [...args, ...next])],
    which is determined by the [args] it closes over. *)
Inductive curried_result : Type :=
| Returned (v : value)
| Awaiting (args : list value).

Section Curry.
Context {S : Type} `{Host S}.
(** The function to curry and its [length], the number of its declared
    parameters. *)
Variable fn : list value -> M S value.
Variable fn_length : nat.

Definition curried (args : list value) : M S curried_result :=
  if (fn_length <=? List.length args)%nat
  then v <- fn args ;; ret (Returned v)
  else ret (Awaiting args).

Definition curry : list value -> M S curried_result := curried.

(** Calling what a call gave back with the arguments [next]. *)
Definition invoke (r : curried_result) (next : list value)
  : M S curried_result :=
  match r with
  | Awaiting args => curried (args ++ next)
  | Returned v => v' <- call_value v next ;; ret (Returned v')
  end.

(** [r(c1)(c2)...]. *)
Fixpoint invoke_all (r : curried_result) (calls : list (list value))
  : M S curried_result :=
  match calls with
  | [] => ret r
  | next :: rest => r' <- invoke r next ;; invoke_all r' rest
  end.

(** [curry(fn)(c0)(c1)...]. *)
Definition curry_chain (first : list value) (rest : list (list value))
  : M S curried_result :=
  r <- curry first ;; invoke_all r rest.
End Curry.

(** ** compose (core.ts) *)

Section Compose.
Context {S : Type}.

(** [xs.reduceRight(cb, init)]: the indices [k-1], ..., [0] in turn. *)
Fixpoint reduceRight_from {A B : Type} (cb : B -> A -> M S B)
    (xs : list A) (k : nat) (memo : B) : M S B :=
  match k with
  | O => ret memo
  | Datatypes.S k' =>
      match nth_error xs k' with
      | Some a => m <- cb memo a ;; reduceRight_from cb xs k' m
      | None => reduceRight_from cb xs k' memo
      end
  end.

Definition reduceRight {A B : Type} (cb : B -> A -> M S B)
    (xs : list A) (init : B) : M S B :=
  reduceRight_from cb xs (List.length xs) init.

Definition compose (fns : list (value -> M S value))
  : value -> M S value :=
  fun init => reduceRight (fun memo fn => fn memo) fns init.

(** [f1(f2(...fn(x)))], written out. *)
Fixpoint nested (fns : list (value -> M S value)) (x : value)
  : M S value :=
  match fns with
  | [] => ret x
  | f :: rest => y <- nested rest x ;; f y
  end.
End Compose.

(** ** match (core.ts) *)

(** What [match(b, x)] gives back: what the matched entry gives, or, when it
    takes [x] to be missing, the function [fn] that waits for it. *)
Inductive match_result : Type :=
| Matched (v : value)
| MatchCurried.

(** [c.name]. *)
Definition name_of (c : value) : outcome value :=
  match c with
  | VUndefined | VNull =>
      type_error "Cannot read properties of undefined (reading 'name')"
  | VFunction f => Ok (VString (fn_name f))
  | VObject _ props =>
      Ok (match lookup "name" props with Some n => n | None => VUndefined end)
  | VError is_type _ => Ok (VString (if is_type then "TypeError" else "Error"))
  | _ => Ok VUndefined
  end.

(** [x.constructor.name], for [x] other than [undefined] and [null]. *)
Definition constructor_name (x : value) : outcome value :=
  let inherited :=
    match proto_chain x with
    | f :: _ => Ok (VString (fn_name f))
    | [] => name_of VUndefined
    end in
  match x with
  | VObject _ props =>
      match lookup "constructor" props with
      | Some c => name_of c
      | None => inherited
      end
  | _ => inherited
  end.

Definition string_is (v : value) (k : string) : bool :=
  match v with
  | VString s => (s =? k)%string
  | _ => false
  end.

Section Match.
Context {S : Type} `{Host S}.

(** The condition of the loop:
    [x === k || x && (k === x.constructor.name
                      || (k === 'Functor' && is(Functor, x)) || k === '_')]. *)
Definition matches (k : string) (x : value) : M S bool :=
  if string_is x k then ret true
  else if truthy x then
    n <- lift (constructor_name x) ;;
    if string_is n k then ret true
    else
      c <- (if (k =? "Functor")%string then test (is_ Functor x)
            else ret false) ;;
      if c then ret true else ret (k =? "_")%string
  else ret false.

(** [typeof b[k] === 'function' ? b[k](x) : b[k]]. *)
Definition handle (b : list (string * value)) (k : string) (x : value)
  : M S value :=
  let h := match lookup k b with Some h => h | None => VUndefined end in
  if jstype_eqb (typeof h) TFunction then call_value h [x] else ret h.

Fixpoint match_loop (b : list (string * value)) (keys : list string)
    (x : value) : M S value :=
  match keys with
  | [] =>
      s <- lift (to_string x) ;;
      throw (VError false ("No match for '" ++ s ++ "'"))
  | k :: rest =>
      c <- matches k x ;;
      if c then handle b k x else match_loop b rest x
  end.

(** The inner [fn] of [match]. *)
Definition match_fn (b : list (string * value)) (x : value) : M S value :=
  match_loop b (own_keys b) x.

(** [return typeof x === 'undefined' ? fn : fn(x)]. *)
Definition match_ (b : list (string * value)) (x : value)
  : M S match_result :=
  match typeof x with
  | TUndefined => ret MatchCurried
  | _ => v <- match_fn b x ;; ret (Matched v)
  end.
End Match.

(** ** Test doubles *)

(** A host whose function references all answer [undefined]. *)
Definition plain_host (S : Type) : Host S := {|
  impl := fun _ _ => ret VUndefined;
  fn_text := fun f => "function " ++ fn_name f ++ "() { [native code] }"
|}.

(** A stub that answers [r] and counts its calls in the state. *)
Definition counting_stub (r : value) : value -> M nat value :=
  fun _ n => (Ok r, Datatypes.S n).

(** A spy that answers [r] and writes its name to the log. *)
Definition spy {A : Type} (name : string) (r : value) : A -> M (list string) value :=
  fun _ log => (Ok r, (log ++ [name])%list).

(** [arguments[i]] of a call. *)
Definition arg (i : nat) (args : list value) : value := nth i args VUndefined.

(** ** Vocabulary of the properties *)

(** The values [Optional] takes for absent. *)
Definition absent (v : value) : bool :=
  match v with
  | VUndefined | VNull => true
  | _ => false
  end.

(** [undefined] for an absent value, the value itself otherwise. *)
Definition normalized (v : value) : value :=
  if absent v then VUndefined else v.

(** The values [is(Error, v)] is truthy on: the instances of [Error], and
    [undefined], on which [is] hands back its inner function. *)
Definition failed (v : value) : bool :=
  match v with
  | VUndefined => true
  | _ => instanceof v (Builtin cError)
  end.


(** One link of a chain of operations on a [Result]. *)
Inductive operation (S : Type) : Type :=
| Map (fn : value -> M S value)
| Apply (fn : Result.t)
| Bind (fn : value -> M S Result.t).
Arguments Map {S} fn.
Arguments Apply {S} fn.
Arguments Bind {S} fn.

Definition perform {S : Type} `{Host S} (o : Result.t) (op : operation S)
  : M S Result.t :=
  match op with
  | Map fn => Result.map o fn
  | Apply fn => Result.apply o fn
  | Bind fn => Result.bind o fn
  end.

(** [o.op1(...).op2(...)...]. *)
Fixpoint chain {S : Type} `{Host S} (o : Result.t) (ops : list (operation S))
  : M S Result.t :=
  match ops with
  | [] => ret o
  | op :: rest => o' <- perform o op ;; chain o' rest
  end.

(** A host whose function references all answer [42] and count the call. *)
Definition counting_host : Host nat := {|
  impl := fun _ _ n => (Ok (VNumber 42), Datatypes.S n);
  fn_text := fun f => "function " ++ fn_name f ++ "() { [native code] }"
|}.

(** The values [is(Promise, y)] is truthy on: the promises, and
    [undefined]. *)
Definition deferred (y : value) : bool :=
  match y with
  | VUndefined => true
  | _ => instanceof y (Builtin cPromise)
  end.

Definition upper_char (c : ascii) : ascii :=
  let n := nat_of_ascii c in
  if ((97 <=? n) && (n <=? 122))%nat then ascii_of_nat (n - 32) else c.

(** [toUpperCase] on the ASCII letters. *)
Fixpoint upper (s : string) : string :=
  match s with
  | EmptyString => EmptyString
  | String c rest => String (upper_char c) (upper rest)
  end.

(** The functions of the tests in [core.test.ts]. *)
Section TestFunctions.
Context {S : Type} `{Host S}.

(** [(x) => x + 1]. *)
Definition increment : value -> M S value :=
  fun x => lift (js_add x (VNumber 1)).

(** [(x) => `Value: ${x}`]. *)
Definition stringify : value -> M S value :=
  fun x => s <- lift (to_string x) ;; ret (VString ("Value: " ++ s)).

(** [(x) => x.toUpperCase()]. *)
Definition toUpperCase : value -> M S value :=
  fun x =>
    match x with
    | VString s => ret (VString (upper s))
    | VUndefined | VNull =>
        throw (VError true "Cannot read properties of undefined (reading 'toUpperCase')")
    | _ => throw (VError true "x.toUpperCase is not a function")
    end.

(** [(a, b, c) => a + b + c], of length 3. *)
Definition add3 : list value -> M S value :=
  fun args =>
    lift (obind (js_add (arg 0 args) (arg 1 args))
            (fun ab => js_add ab (arg 2 args))).
End TestFunctions.

(** Where a chain of calls of a curried function ends once all the
    arguments [all] are in: [fn] is run on them if they are enough, else the
    function that waits for more is handed back. *)
Definition settle {S : Type} (fn : list value -> M S value) (fn_length : nat)
    (all : list value) : M S curried_result :=
  if (fn_length <=? List.length all)%nat
  then v <- fn all ;; ret (Returned v)
  else ret (Awaiting all).

(** The arguments the dispatch table of [concat] names a row for: big
    integers, numbers, strings, booleans, arrays, objects and functions.
    An argument of any other type has none. *)
Definition another_type (v : value) : bool :=
  match v with
  | VBigInt _ | VNumber _ | VNaN | VInfinity _ | VString _ | VBoolean _
  | VArray _ | VObject _ _ | VFunction _ => false
  | _ => true
  end.

(** The properties of an object; a function has none of its own here. *)
Definition properties (v : value) : list (string * value) :=
  match v with
  | VObject _ props => props
  | _ => []
  end.

Definition has_key (k : string) (props : list (string * value)) : bool :=
  match lookup k props with
  | Some _ => true
  | None => false
  end.

(** The shallow merge as the specification words it, the keys of the
    argument overriding the receiver's: what the receiver has under the
    keys the argument does not have, and all the argument has. *)
Definition shallow_merge (held v : value) : value :=
  VObject [Builtin cObject]
    (filter (fun kv => negb (has_key (fst kv) (properties v)))
       (properties held)
     ++ properties v).

(** The dispatch table of [concat] as the specification words it, for a
    held value and an argument of one kind: sums, concatenations, the logical
    and, the shallow merge.  [None] where the words do not say (a number
    added to a string, say). *)
Definition combine (held v : value) : option value :=
  match v, held with
  | VBigInt b, VBigInt a => Some (VBigInt (a + b))
  | (VNumber _ | VNaN | VInfinity _), (VNumber _ | VNaN | VInfinity _) =>
      Some (number_add held v)
  | VString b, VString a => Some (VString (a ++ b))
  | VBoolean b, VBoolean a => Some (VBoolean (a && b))
  | VArray b, VArray a => Some (VArray (a ++ b))
  | (VObject _ _ | VFunction _), VObject _ _ => Some (shallow_merge held v)
  | _, _ => None
  end.

(** The reference definition of [concat], from the specification: a receiver
    in its absorbing state is replaced by the argument; otherwise the table,
    and replacement for an argument of any other type. *)
Definition concat_reference (absorbing : value -> bool) (held v : value)
  : option value :=
  if absorbing held then Some v
  else if another_type v then Some v
  else combine held v.

(** The absorbing state of a [Result]: it holds an error. *)
Definition holds_error (v : value) : bool := instanceof v (Builtin cError).

(** An object as the language has it: no key twice. *)
Definition well_formed (v : value) : Prop :=
  match v with
  | VObject _ props => NoDup (List.map fst props)
  | _ => True
  end.

(** Two values are alike when they are equal, or are objects with the same
    prototype chain and the same value under every key. *)
Definition alike (a b : value) : Prop :=
  match a, b with
  | VObject proto_a pa, VObject proto_b pb =>
      proto_a = proto_b /\ forall k, lookup k pa = lookup k pb
  | _, _ => a = b
  end.

(** * The rest of the library *)

(** ** The small functions of core.ts *)

(** [identity]. *)
Definition identity {S : Type} (x : value) : M S value := ret x.

(** [defined]: [!(typeof x === 'undefined')]. *)
Definition defined (x : value) : bool :=
  negb (jstype_eqb (typeof x) TUndefined).

(** [not]: [!x]. *)
Definition not_ (x : value) : value := VBoolean (negb (truthy x)).

(** [a || b]. *)
Definition js_or (a b : value) : value := if truthy a then a else b.

(** [(a, b) => a || b], [(a, b) => (a && !b) || (!a && b)] and
    [(a, b) => a && b], each of length 2. *)
Definition or_fn {S : Type} : list value -> M S value :=
  fun args => ret (js_or (arg 0 args) (arg 1 args)).

Definition xor_fn {S : Type} : list value -> M S value :=
  fun args =>
    let a := arg 0 args in
    let b := arg 1 args in
    ret (js_or (js_and a (not_ b)) (js_and (not_ a) b)).

Definition and_fn {S : Type} : list value -> M S value :=
  fun args => ret (js_and (arg 0 args) (arg 1 args)).

(** [or = curry(...)], [xor = curry(...)], [and = curry(...)]. *)
Definition or_ {S : Type} : list value -> M S curried_result :=
  curry or_fn 2.

Definition xor {S : Type} : list value -> M S curried_result :=
  curry xor_fn 2.

Definition and_ {S : Type} : list value -> M S curried_result :=
  curry and_fn 2.

(** [x.length === 0] for an [x] that is an instance of [Array]: an array,
    or an object that inherits the [length] 0 of [Array.prototype] unless
    it has a [length] of its own. *)
Definition length_is_zero (x : value) : bool :=
  match x with
  | VArray xs => Nat.eqb (List.length xs) 0
  | VObject _ props =>
      match lookup "length" props with
      | Some (VNumber n) => n =? 0
      | Some _ => false
      | None => true
      end
  | _ => false
  end.

(** [Object.keys(x)] for an object or a function; an array is not asked. *)
Definition keys_of (x : value) : list string :=
  match x with
  | VObject _ props => own_keys props
  | _ => []
  end.

(** [empty].  The tests on [Map], [Set], [WeakMap], [WeakSet], [RegExp] and
    [Date] are false on every value of the universe and are left out. *)
Definition empty (x : value) : bool :=
  if match x with
     | VNull | VUndefined => true
     | VString s => (s =? "")%string
     | _ => false
     end
  then true
  else if instanceof x (Builtin cObject) then
    if instanceof x (Builtin cArray) then length_is_zero x
    else if instanceof x (Builtin cFunction) || instanceof x (Builtin cError)
    then false
    else Nat.eqb (List.length (keys_of x)) 0
  else false.

(** [tryCatch(fn, errorHandler)]: the function it returns. *)
Definition tryCatch {S : Type} (fn errorHandler : list value -> M S value)
  : list value -> M S value :=
  fun args s =>
    match fn args s with
    | (Ok v, s') => (Ok v, s')
    | (Throw error, s') => errorHandler (error :: args) s'
    end.

(** ** map (core.ts) *)

(** What [map(fn, x)] gives back: a value (an array, a promise, what the
    functor's own [map] answers), an [Optional], or the inner function [ap]
    when it takes [x] to be missing. *)
Inductive map_result : Type :=
| MapValue (v : value)
| MapOptional (o : Optional.t)
| MapCurried.

Section CoreMap.
Context {S : Type}.
(** [x.map(fn)] on an object [x] that is not an array: the method belongs
    to the caller's object. *)
Variable functor_map : value -> (list value -> M S value) -> M S value.

(** [xs.map(fn)] on an array: [fn(element, index, array)] in turn. *)
Fixpoint array_map (fn : list value -> M S value) (array : value)
    (xs : list value) (i : nat) : M S (list value) :=
  match xs with
  | [] => ret []
  | x :: rest =>
      y <- fn [x; VNumber (Z.of_nat i); array] ;;
      ys <- array_map fn array rest (Datatypes.S i) ;;
      ret (y :: ys)
  end.

(** The inner [ap] of [map]. *)
Definition map_ap (fn : list value -> M S value) (x : value)
  : M S map_result :=
  c <- test (is_ Array x) ;;
  if c then
    match x with
    | VArray xs => ys <- array_map fn x xs 0 ;; ret (MapValue (VArray ys))
    | _ => throw (VError true "x.map is not a function")
    end
  else
  c <- test (is_ Promise x) ;;
  if c then v <- Effect.then_ x (fun a => fn [a]) ;; ret (MapValue v)
  else
  c <- test (is_ Functor x) ;;
  if c then v <- functor_map x fn ;; ret (MapValue v)
  else
  o <- Optional.of_ x ;;
  o' <- Optional.map o (fun a => fn [a]) ;;
  ret (MapOptional o').

(** [return typeof x === 'undefined' ? ap : ap(x)]. *)
Definition map_ (fn : list value -> M S value) (x : value)
  : M S map_result :=
  match typeof x with
  | TUndefined => ret MapCurried
  | _ => map_ap fn x
  end.
End CoreMap.

(** ** memoize (memoize.ts) *)

(** The cache, a [Map] from keys to results, in insertion order. *)
Definition cache : Type := list (string * value).

Section Memoize.
Context {S : Type}.
(** [JSON.stringify(args)], the host's serialiser: it answers a key or
    throws. *)
Variable stringify : list value -> outcome string.
Variable fn : list value -> M S value.

(** One call of the memoized function on the cache [c]: it answers the
    result and the cache after the call. *)
Definition memoized (c : cache) (args : list value) : M S (value * cache) :=
  key <- lift (stringify args) ;;
  match lookup key c with
  | Some v => ret (v, c)
  | None => result <- fn args ;; ret (result, set_prop key result c)
  end.

(** Calls one after the other; a call that throws leaves the cache as it
    was and ends the run. *)
Fixpoint memoized_all (c : cache) (calls : list (list value))
  : M S (list value * cache) :=
  match calls with
  | [] => ret ([], c)
  | args :: rest =>
      r <- memoized c args ;;
      rs <- memoized_all (snd r) rest ;;
      ret (fst r :: fst rs, snd rs)
  end.
End Memoize.

(** ** Chains of [Effect.map] *)

(** [e.map(g1).map(g2)...]. *)
Definition map_all {S : Type} (e : Effect.t S)
    (gs : list (value -> M S value)) : Effect.t S :=
  fold_left Effect.map gs e.

(** A transformation that only computes. *)
Definition pure_fn {S : Type} (g : value -> value) : value -> M S value :=
  fun v => ret (g v).

(** ** List (list.ts) *)

(** Arrays are lists of values; holes are outside the model.  A callback
    [(x, i) => ...] takes the element and its index.  Each function that
    also comes curried, handing back its inner function when the array is
    missing, is modelled at a call that gives the array. *)
Module List_.

(** What the classifier of [partition] answers: [true], [false], or a
    number that is an array index (other numbers would define named
    properties on the result). *)
Inductive bucket : Type :=
| Pass
| Fail
| Nth (n : nat).

(** [r === true ? 0 : r === false ? 1 : r]. *)
Definition bucket_index (r : bucket) : nat :=
  match r with
  | Pass => 0
  | Fail => 1
  | Nth n => n
  end.

(** The array of arrays [partition] builds: [None] is a hole. *)
Definition groups : Type := list (option (list value)).

(** [xss[j] || []]. *)
Definition group (j : nat) (xss : groups) : list value :=
  match nth_error xss j with
  | Some (Some xs) => xs
  | _ => []
  end.

(** [xss[j] = xs]: within the array the element is replaced, past its end
    the array grows and the indices in between are holes. *)
Fixpoint set_group (j : nat) (xs : list value) (xss : groups) : groups :=
  match j, xss with
  | O, [] => [Some xs]
  | O, _ :: rest => Some xs :: rest
  | Datatypes.S j', [] => None :: set_group j' xs []
  | Datatypes.S j', g :: rest => g :: set_group j' xs rest
  end.

(** The index [Array.prototype.slice] makes of an argument: counted from
    the end when negative, and kept within the array. *)
Definition relative (len k : Z) : Z :=
  if k <? 0 then Z.max (len + k) 0 else Z.min k len.

(** [xs[k]] for a number [k]. *)
Definition at_ (xs : list value) (k : Z) : value :=
  if k <? 0 then VUndefined else nth (Z.to_nat k) xs VUndefined.

Section Functions.
Context {S : Type}.

(** [([x]) => x]. *)
Definition head (xs : list value) : value := nth 0 xs VUndefined.

(** [([, ...xs]) => xs]. *)
Definition tail (xs : list value) : list value := List.tl xs.

(** [xs.slice(x, y)]; [y] may be missing. *)
Definition slice (x : Z) (y : option Z) (xs : list value) : list value :=
  let len := Z.of_nat (List.length xs) in
  let from := relative len x in
  let to := match y with
            | Some y => relative len y
            | None => len
            end in
  firstn (Z.to_nat (to - from)) (skipn (Z.to_nat from) xs).

Definition size (xs : list value) : nat := List.length xs.

(** [[...xs].reverse()]. *)
Definition reverse (xs : list value) : list value := rev xs.

(** [xs.reduce(cb, init)] with the index, from the element at [i]. *)
Fixpoint reduce_from {B : Type} (cb : B -> value -> nat -> M S B)
    (xs : list value) (i : nat) (acc : B) : M S B :=
  match xs with
  | [] => ret acc
  | x :: rest => a <- cb acc x i ;; reduce_from cb rest (Datatypes.S i) a
  end.

(** [xs.filter(fn)], from the element at [i]. *)
Fixpoint filter_from (fn : value -> nat -> M S value) (xs : list value)
    (i : nat) : M S (list value) :=
  match xs with
  | [] => ret []
  | x :: rest =>
      r <- fn x i ;;
      ys <- filter_from fn rest (Datatypes.S i) ;;
      ret (if truthy r then x :: ys else ys)
  end.

Definition filter (fn : value -> nat -> M S value) (xs : list value)
  : M S (list value) :=
  filter_from fn xs 0.

(** [xs.reduce((xs, x, i) => fn(x, i) ? xs : [...xs, x], [])]. *)
Definition reject (fn : value -> nat -> M S value) (xs : list value)
  : M S (list value) :=
  reduce_from (fun acc x i =>
                 r <- fn x i ;;
                 ret (if truthy r then acc else (acc ++ [x])%list)) xs 0 [].

Definition partition (fn : value -> nat -> M S bucket) (xs : list value)
  : M S groups :=
  reduce_from (fun xss x i =>
                 r <- fn x i ;;
                 let j := bucket_index r in
                 ret (set_group j (group j xss ++ [x])%list xss)) xs 0 [].

(** [xs.filter(compose(not, empty))]. *)
Definition compact (xs : list value) : M S (list value) :=
  filter (fun x _ =>
            compose [fun v => ret (not_ v);
                     fun v => ret (VBoolean (empty v))] x) xs.

(** [xs.map(fn)], from the element at [i]. *)
Fixpoint map_from (fn : value -> nat -> M S value) (xs : list value)
    (i : nat) : M S (list value) :=
  match xs with
  | [] => ret []
  | x :: rest =>
      y <- fn x i ;;
      ys <- map_from fn rest (Datatypes.S i) ;;
      ret (y :: ys)
  end.

Definition map (fn : value -> nat -> M S value) (xs : list value)
  : M S (list value) :=
  map_from fn xs 0.

(** [xs.reduce(fn, it)]. *)
Definition reduce {B : Type} (fn : B -> value -> M S B) (it : B)
    (xs : list value) : M S B :=
  reduce_from (fun a x _ => fn a x) xs 0 it.
End Functions.

(** A reduction whose callback only computes. *)
Fixpoint fold_index {B : Type} (cb : B -> value -> nat -> B)
    (xs : list value) (i : nat) (acc : B) : B :=
  match xs with
  | [] => acc
  | x :: rest => fold_index cb rest (Datatypes.S i) (cb acc x i)
  end.

(** [xs.reduce((xxs, it, i) =>
      (i % 2 === 0 ? [...xxs, [it, xs[i + 1]]] : xxs), [])]. *)
Definition toPairs (xs : list value) : list value :=
  fold_index (fun xxs it i =>
                if Nat.even i
                then (xxs ++ [VArray [it; nth (Datatypes.S i) xs VUndefined]])%list
                else xxs) xs 0 [].

(** [xs.map(cb)] for a callback that only computes. *)
Fixpoint map_index (cb : value -> nat -> value) (xs : list value) (i : nat)
  : list value :=
  match xs with
  | [] => []
  | x :: rest => cb x i :: map_index cb rest (Datatypes.S i)
  end.

(** [[...xs].map((x, k) => i === k ? xs[j] : j === k ? xs[i] : x)]. *)
Definition swap (i j : Z) (xs : list value) : list value :=
  map_index (fun x k =>
               if i =? Z.of_nat k then at_ xs j
               else if j =? Z.of_nat k then at_ xs i
               else x) xs 0.

(** [(p.length > xs.length ? p.slice(0, xs.length) : p)
      .reduce((xxs, b, i) => b ? [...xxs, xs[i]] : xxs, [])]. *)
Definition parts (p xs : list value) : list value :=
  fold_index (fun xxs b i =>
                if truthy b then (xxs ++ [nth i xs VUndefined])%list else xxs)
    (if (List.length xs <? List.length p)%nat
     then slice 0 (Some (Z.of_nat (List.length xs))) p
     else p) 0 [].

(** [xs.flat(1)]. *)
Definition flatten (xs : list value) : list value :=
  flat_map (fun x => match x with
                     | VArray ys => ys
                     | _ => [x]
                     end) xs.

(** The elements a predicate on element and index holds of, in order. *)
Fixpoint select (p : value -> nat -> bool) (xs : list value) (i : nat)
  : list value :=
  match xs with
  | [] => []
  | x :: rest =>
      if p x i then x :: select p rest (Datatypes.S i)
      else select p rest (Datatypes.S i)
  end.

(** The array [partition] ends with when the elements that passed and the
    elements that failed are these: the second group is there only if
    something failed, and the first is a hole if nothing passed. *)
Definition two_groups (passed failed : list value) : groups :=
  match failed, passed with
  | [], [] => []
  | [], _ => [Some passed]
  | _, [] => [None; Some failed]
  | _, _ => [Some passed; Some failed]
  end.

(** The elements two by two; a last one alone is paired with
    [undefined]. *)
Fixpoint pairs (xs : list value) : list value :=
  match xs with
  | [] => []
  | a :: rest =>
      match rest with
      | [] => [VArray [a; VUndefined]]
      | b :: rest' => VArray [a; b] :: pairs rest'
      end
  end.

End List_.

(** ** The first generation of the library (lib/index.js) *)

(** These functions walk an array by destructuring, [([x, ...xs]) => ...],
    and take an [undefined] head for the end of the array. *)
Module Legacy.

Section Functions.
Context {S : Type} `{Host S}.

(** [def]: [typeof x !== 'undefined']. *)
Definition def (x : value) : bool :=
  negb (jstype_eqb (typeof x) TUndefined).

(** [reduce([x, ...xs], fn, memo, i = 0)]. *)
Fixpoint reduce {B : Type} (xs : list value)
    (fn : B -> value -> nat -> M S B) (memo : B) (i : nat) : M S B :=
  match xs with
  | [] => ret memo
  | x :: rest =>
      if def x
      then m <- fn memo x i ;; reduce rest fn m (Datatypes.S i)
      else ret memo
  end.

Definition map (xs : list value) (fn : value -> nat -> M S value)
  : M S (list value) :=
  reduce xs (fun memo x i => y <- fn x i ;; ret (memo ++ [y])%list) [] 0.

Definition length (xs : list value) : M S Z :=
  reduce xs (fun memo _ _ => ret (memo + 1)) 0 0.

Definition first (xs : list value) (n : Z) : M S (list value) :=
  reduce xs (fun memo x i =>
               ret (if Z.of_nat i <? n then (memo ++ [x])%list else memo))
    [] 0.

Definition last (xs : list value) (n : Z) : M S (list value) :=
  reduce xs (fun memo x i =>
               len <- length xs ;;
               ret (if len - n <=? Z.of_nat i
                    then (memo ++ [x])%list else memo))
    [] 0.

Definition reverse (xs : list value) : M S (list value) :=
  reduce xs (fun memo x _ => ret (x :: memo)) [] 0.

Definition reduceRight {B : Type} (xs : list value)
    (fn : B -> value -> nat -> M S B) (memo : B) : M S B :=
  r <- reverse xs ;; reduce r fn memo 0.

Definition filter (xs : list value) (fn : value -> M S value)
  : M S (list value) :=
  reduce xs (fun memo x _ =>
               r <- fn x ;;
               ret (if truthy r then (memo ++ [x])%list else memo)) [] 0.

Definition reject (xs : list value) (fn : value -> M S value)
  : M S (list value) :=
  reduce xs (fun memo x _ =>
               r <- fn x ;;
               ret (if truthy r then memo else (memo ++ [x])%list)) [] 0.

(** [[filter(xs, fn), reject(xs, fn)]]. *)
Definition partition (xs : list value) (fn : value -> M S value)
  : M S (list value * list value) :=
  a <- filter xs fn ;; b <- reject xs fn ;; ret (a, b).

(** [flow(...args)]: the functions are values of the array [args]. *)
Definition flow (args : list value) : value -> M S value :=
  fun init => reduce args (fun memo fn _ => call_value fn [memo]) init 0.

(** [compose = (...args) => flow(...reverse(args))]. *)
Definition compose (args : list value) : value -> M S value :=
  fun init => r <- reverse args ;; flow r init.
End Functions.

(** [slice([x, ...xs], i, y, curr = 0)]: [y] put in before the element at
    index [i]. *)
Fixpoint slice (xs : list value) (i : Z) (y : value) (curr : nat)
  : list value :=
  match xs with
  | [] => []
  | x :: rest =>
      if def x then
        if Z.of_nat curr =? i
        then y :: x :: slice rest i y (Datatypes.S curr)
        else x :: slice rest i y (Datatypes.S curr)
      else []
  end.

(** The numbers [min] and [max] compare: the integers among the doubles,
    the two infinities they start from, and [NaN]. *)
Inductive xnum : Type :=
| NegInf
| Num (n : Z)
| PosInf
| NaN.

(** [a < b]: false whenever one of the two is [NaN]. *)
Definition xlt (a b : xnum) : bool :=
  match a, b with
  | NaN, _ | _, NaN => false
  | NegInf, NegInf => false
  | NegInf, _ => true
  | Num _, NegInf => false
  | Num m, Num n => m <? n
  | Num _, PosInf => true
  | PosInf, _ => false
  end.

Definition is_nan (a : xnum) : bool :=
  match a with
  | NaN => true
  | _ => false
  end.

(** [min([x, ...xs], result = Infinity)] on an array of numbers. *)
Fixpoint min_ (xs : list xnum) (result : xnum) : xnum :=
  match xs with
  | [] => result
  | x :: rest => if xlt x result then min_ rest x else result
  end.

(** [max([x, ...xs], result = -Infinity)] on an array of numbers;
    [x > result] is [result < x]. *)
Fixpoint max_ (xs : list xnum) (result : xnum) : xnum :=
  match xs with
  | [] => result
  | x :: rest => if xlt result x then max_ rest x else max_ rest result
  end.

Definition min (xs : list xnum) : xnum := min_ xs PosInf.
Definition max (xs : list xnum) : xnum := max_ xs NegInf.

End Legacy.

(** A predicate that only computes, and counts its calls in the state. *)
Definition counting_predicate (p : value -> bool) : value -> M nat value :=
  fun x n => (Ok (VBoolean (p x)), Datatypes.S n).

(** * Properties *)

(** ** The monad *)

Lemma bindM_assoc {S A B C : Type} (m : M S A) (f : A -> M S B)
    (g : B -> M S C) (s : S) :
  bindM (bindM m f) g s = bindM m (fun a => bindM (f a) g) s.
Proof.
  unfold bindM. destruct (m s) as [[a | e] s']; reflexivity.
Qed.

Lemma bindM_ret_r {S A : Type} (m : M S A) (s : S) :
  bindM m ret s = m s.
Proof.
  unfold bindM, ret. destruct (m s) as [[a | e] s']; reflexivity.
Qed.

Lemma bindM_ext {S A B : Type} (m : M S A) (f g : A -> M S B) (s : S) :
  (forall a s', f a s' = g a s') -> bindM m f s = bindM m g s.
Proof.
  intros E. unfold bindM. destruct (m s) as [[a | e] s']; auto.
Qed.

(** ** The two tests of the containers *)

Lemma nullish_spec {S : Type} (v : value) (s : S) :
  nullish v s = (Ok (absent v), s).
Proof. destruct v; reflexivity. Qed.

Lemma is_Error_spec {S : Type} (v : value) (s : S) :
  test (is_ Error v) s = (Ok (failed v), s).
Proof. destruct v; reflexivity. Qed.

(** ** Optional *)

Section OptionalFacts.
Context {S : Type} `{Host S}.

Lemma normalized_not_null (v : value) : normalized v <> VNull.
Proof. destruct v; discriminate. Qed.

Lemma Optional_of_spec (v : value) (s : S) :
  Optional.of_ v s = (Ok (Optional.mk (normalized v)), s).
Proof.
  unfold Optional.of_, bindM, normalized. rewrite nullish_spec.
  destruct (absent v); reflexivity.
Qed.

(** [map] always runs [fn], on whatever is held. *)
Lemma Optional_map_spec (o : Optional.t) (fn : value -> M S value) (s : S) :
  Optional.map o fn s =
  (y <- fn (Optional.x o) ;; ret (Optional.mk (normalized y))) s.
Proof.
  unfold Optional.map. apply bindM_ext. intros y s'.
  unfold bindM, normalized. rewrite nullish_spec.
  destruct (absent y); reflexivity.
Qed.

Lemma Optional_bind_spec (o : Optional.t) (fn : value -> M S Optional.t)
    (s : S) :
  Optional.bind o fn s =
  (r <- fn (Optional.x o) ;;
   ret (Optional.mk (normalized (Optional.x r)))) s.
Proof.
  unfold Optional.bind. apply bindM_ext. intros y s'.
  unfold bindM, normalized. rewrite nullish_spec.
  destruct (absent (Optional.x y)); reflexivity.
Qed.



End OptionalFacts.



(** ** Result *)

Section ResultFacts.
Context {S : Type} `{Host S}.

Lemma Result_of_spec (v : value) (s : S) :
  Result.of_ v s = (Ok (Result.mk v), s).
Proof.
  unfold Result.of_, bindM. rewrite is_Error_spec.
  destruct (failed v); reflexivity.
Qed.

Lemma Result_map_spec (o : Result.t) (fn : value -> M S value) (s : S) :
  Result.map o fn s =
  if failed (Result.x o) then (Ok o, s)
  else (y <- fn (Result.x o) ;; ret (Result.mk y)) s.
Proof.
  unfold Result.map, bindM at 1. rewrite is_Error_spec.
  destruct (failed (Result.x o)); [reflexivity |].
  apply bindM_ext. intros y s'. apply Result_of_spec.
Qed.

Lemma Result_bind_spec (o : Result.t) (fn : value -> M S Result.t) (s : S) :
  Result.bind o fn s =
  if failed (Result.x o) then (Ok o, s) else fn (Result.x o) s.
Proof.
  unfold Result.bind, bindM. rewrite is_Error_spec.
  destruct (failed (Result.x o)); reflexivity.
Qed.

Lemma Result_apply_spec (o fn : Result.t) (s : S) :
  Result.apply o fn s =
  if failed (Result.x fn) then (Ok o, s)
  else Result.map o (fun a => call_value (Result.x fn) [a]) s.
Proof.
  unfold Result.apply, bindM. rewrite is_Error_spec.
  destruct (failed (Result.x fn)); reflexivity.
Qed.

(** A [Result] that holds an error comes out of any operation as it went
    in, and nothing was run. *)
Lemma Result_error_absorbs_one (o : Result.t) (op : operation S) (s : S) :
  failed (Result.x o) = true -> perform o op s = (Ok o, s).
Proof.
  intros F. destruct op as [fn | fn | fn]; simpl.
  - rewrite Result_map_spec, F. reflexivity.
  - rewrite Result_apply_spec. destruct (failed (Result.x fn));
      [reflexivity | rewrite Result_map_spec, F; reflexivity].
  - rewrite Result_bind_spec, F. reflexivity.
Qed.

(** The same for a chain of any length. *)
Lemma Result_error_absorbs (ops : list (operation S)) (o : Result.t)
    (s : S) :
  failed (Result.x o) = true -> chain o ops s = (Ok o, s).
Proof.
  intros F. induction ops as [| op rest IH]; simpl; [reflexivity |].
  unfold bindM. rewrite Result_error_absorbs_one by assumption. exact IH.
Qed.
End ResultFacts.

(** C1, on the code as it is: [Optional.of(undefined)] is absent, and [map],
    [bind] and [apply] on it still call the function, once each, with
    [undefined], and wrap what it answers; the stub answers [42], so the
    results are present. *)
Theorem C1_optional_absent_still_calls :
  (o <- Optional.of_ VUndefined ;;
   Optional.map o (counting_stub (VNumber 42))) 0%nat
  = (Ok (Optional.mk (VNumber 42)), 1%nat)
  /\ (o <- Optional.of_ VUndefined ;;
      Optional.bind o (fun v => r <- counting_stub (VNumber 42) v ;;
                                ret (Optional.mk r))) 0%nat
     = (Ok (Optional.mk (VNumber 42)), 1%nat)
  /\ (o <- Optional.of_ VUndefined ;;
      Optional.apply (H := counting_host) o
        (Optional.mk (VFunction (Closure "f" 0)))) 0%nat
     = (Ok (Optional.mk (VNumber 42)), 1%nat).
Proof. repeat split. Qed.

(** ** The map composition law *)

(** C8, as stated, fails: with [f] answering [null], [Optional] hands
    [undefined] to [g] where the composed function hands it [null]; with [f]
    answering an [Error], [Result] does not run [g] where the composed
    function does. *)
Lemma C8_counterexample :
  let f : value -> M unit value := fun _ => ret VNull in
  let g : value -> M unit value :=
    fun v => ret (match v with
                  | VNull => VString "null"
                  | _ => VString "other"
                  end) in
  let f' : value -> M unit value := fun _ => ret (VError false "e") in
  let g' : value -> M unit value := fun _ => ret (VString "recovered") in
  let c := Optional.mk (VNumber 1) in
  let c' := Result.mk (VNumber 1) in
  ((d <- Optional.map c f ;; Optional.map d g) tt
     = (Ok (Optional.mk (VString "other")), tt)
   /\ Optional.map c (fun v => y <- f v ;; g y) tt
      = (Ok (Optional.mk (VString "null")), tt)
   /\ (d <- Optional.map c f ;; Optional.map d g) tt
      <> Optional.map c (fun v => y <- f v ;; g y) tt)
  /\ ((d <- Result.map c' f' ;; Result.map d g') tt
        = (Ok (Result.mk (VError false "e")), tt)
      /\ Result.map c' (fun v => y <- f' v ;; g' y) tt
         = (Ok (Result.mk (VString "recovered")), tt)
      /\ (d <- Result.map c' f' ;; Result.map d g') tt
         <> Result.map c' (fun v => y <- f' v ;; g' y) tt).
Proof.
  repeat split; intros E; vm_compute in E; discriminate E.
Qed.

(** C8, amended: when [f] answers a present value (neither [undefined] nor
    [null] for Optional; neither an [Error] nor [undefined] for Result),
    [c.map(f).map(g)] and [c.map(x => g(f(x)))] end alike: the same held
    value, the same state, or the same thrown value. *)
Theorem C8_map_composition_when_present {S : Type}
    (held : value) (f g : value -> M S value) (s : S) :
  ((forall y s', f held s = (Ok y, s') -> absent y = false) ->
   (c <- Optional.map (Optional.mk held) f ;; Optional.map c g) s
   = Optional.map (Optional.mk held) (fun v => y <- f v ;; g y) s)
  /\ ((forall y s', f held s = (Ok y, s') -> failed y = false) ->
      (c <- Result.map (Result.mk held) f ;; Result.map c g) s
      = Result.map (Result.mk held) (fun v => y <- f v ;; g y) s).
Proof.
  split; intros P.
  - unfold bindM at 1.
    rewrite (Optional_map_spec (Optional.mk held) f).
    rewrite (Optional_map_spec (Optional.mk held) (fun v => y <- f v ;; g y)).
    unfold bindM; simpl.
    destruct (f held s) as [[y | e] s1] eqn:E; simpl; [| reflexivity].
    rewrite Optional_map_spec. unfold bindM; simpl.
    unfold normalized at 1. rewrite (P y s1 eq_refl). reflexivity.
  - unfold bindM at 1.
    rewrite (Result_map_spec (Result.mk held) f).
    rewrite (Result_map_spec (Result.mk held) (fun v => y <- f v ;; g y)).
    simpl. destruct (failed held) eqn:F.
    + rewrite Result_map_spec. simpl. rewrite F. reflexivity.
    + unfold bindM; simpl.
      destruct (f held s) as [[y | e] s1] eqn:E; simpl; [| reflexivity].
      rewrite Result_map_spec. simpl. rewrite (P y s1 eq_refl).
      reflexivity.
Qed.

(** The law on a container that holds 1, with [x => x + 1] twice. *)
Lemma C8_map_composition_when_present_witness :
  (c <- Optional.map (Optional.mk (VNumber 1)) (increment (H := plain_host unit)) ;;
   Optional.map c (increment (H := plain_host unit))) tt
  = Optional.map (Optional.mk (VNumber 1))
      (fun v => y <- increment (H := plain_host unit) v ;;
                increment (H := plain_host unit) y) tt
  /\ (c <- Result.map (Result.mk (VNumber 1)) (increment (H := plain_host unit)) ;;
      Result.map c (increment (H := plain_host unit))) tt
     = Result.map (Result.mk (VNumber 1))
         (fun v => y <- increment (H := plain_host unit) v ;;
                   increment (H := plain_host unit) y) tt.
Proof.
  pose proof (@C8_map_composition_when_present unit (VNumber 1)
                (increment (H := plain_host unit))
                (increment (H := plain_host unit)) tt) as [O R].
  split.
  - apply O. intros y s' E. vm_compute in E. inversion E. reflexivity.
  - apply R. intros y s' E. vm_compute in E. inversion E. reflexivity.
Defined.

(** ** Effect *)

Section EffectFacts.
Context {S : Type}.

(** A mapped effect whose function answers a plain value hands that value
    to the transformation. *)
Lemma Effect_map_plain (e : Effect.t S) (g : value -> M S value)
    (args : list value) (s s1 : S) (y : value) :
  Effect.call e args s = (Ok y, s1) ->
  deferred y = false ->
  Effect.call (Effect.map e g) args s = g y s1.
Proof.
  intros E D. unfold Effect.call in *. simpl. unfold bindM at 1.
  rewrite E. unfold bindM.
  assert (T : test (S := S) (is_ Promise y) s1 = (Ok false, s1)).
  { destruct y; try reflexivity; simpl in D; try discriminate D.
    - unfold test, is_. simpl. unfold instanceof in D. simpl in D.
      unfold Promise. simpl. unfold instanceof. simpl. rewrite D. reflexivity.
    - unfold test, is_. simpl. unfold instanceof in *. simpl in *.
      destruct is_type; simpl in *; reflexivity. }
  rewrite T. reflexivity.
Qed.

(** Two transformations on plain values run in the order they were
    registered, after the wrapped function, once each. *)
Lemma Effect_pipeline_plain (f : list value -> M S value)
    (g h : value -> M S value) (args : list value) (s : S) :
  (forall y s1, f args s = (Ok y, s1) ->
     deferred y = false
     /\ forall z s2, g y s1 = (Ok z, s2) -> deferred z = false) ->
  Effect.call (Effect.map (Effect.map (Effect.of_ f) g) h) args s
  = (y <- f args ;; z <- g y ;; h z) s.
Proof.
  intros P.
  destruct (f args s) as [[y | e] s1] eqn:F.
  - destruct (P y s1 eq_refl) as [Dy Pz].
    assert (G : Effect.call (Effect.map (Effect.of_ f) g) args s = g y s1).
    { apply Effect_map_plain; assumption. }
    unfold bindM at 1. rewrite F.
    destruct (g y s1) as [[z | e] s2] eqn:Gy.
    + rewrite (Effect_map_plain _ h args s s2 z G (Pz z s2 eq_refl)).
      unfold bindM. rewrite Gy. reflexivity.
    + unfold Effect.call in *. simpl in *. unfold bindM at 1.
      rewrite G. unfold bindM. rewrite Gy. reflexivity.
  - unfold Effect.call. simpl. unfold bindM. rewrite F. reflexivity.
Qed.

(** A mapped effect whose function answers [undefined] throws, and the
    transformation is not run. *)
Lemma Effect_map_undefined (e : Effect.t S) (g : value -> M S value)
    (args : list value) (s s1 : S) :
  Effect.call e args s = (Ok VUndefined, s1) ->
  exists err, Effect.call (Effect.map e g) args s = (Throw err, s1).
Proof.
  intros E. unfold Effect.call in *. simpl. unfold bindM at 1.
  rewrite E. eexists. reflexivity.
Qed.
End EffectFacts.

(** C4, on the code as it is: when the wrapped function answers [undefined],
    [map] takes the answer for a promise and throws on its [then]; the
    transformation is never run, where [g(f())] runs it and gives [1]. *)
Theorem C4_effect_map_throws_on_undefined :
  Effect.call (Effect.map (Effect.of_ (spy "f" VUndefined))
                 (spy "g" (VNumber 1))) [] []
  = (Throw (VError true "Cannot read properties of undefined (reading 'then')"),
     ["f"])
  /\ (y <- spy "f" VUndefined (@nil value) ;; spy "g" (VNumber 1) y) []
     = (Ok (VNumber 1), ["f"; "g"]).
Proof. split; reflexivity. Qed.

(** ** curry *)

Section CurryFacts.
Context {S : Type} `{Host S}.
Variable fn : list value -> M S value.
Variable n : nat.

Lemma curried_settles (args : list value) (s : S) :
  curried fn n args s = settle fn n args s.
Proof. reflexivity. Qed.

Lemma settle_run (all : list value) (s : S) :
  settle fn n all s
  = if (n <=? List.length all)%nat
    then (v <- fn all ;; ret (Returned v)) s
    else (Ok (Awaiting all), s).
Proof.
  unfold settle. destruct (n <=? List.length all)%nat; reflexivity.
Qed.

Lemma curried_short (args : list value) (s : S) :
  (List.length args < n)%nat ->
  curried fn n args s = (Ok (Awaiting args), s).
Proof.
  intros L. unfold curried.
  destruct (Nat.leb_spec n (List.length args)); [lia | reflexivity].
Qed.

(** From a function that waits with [acc], through the calls [rest], none
    of which but the last brings the count to [n]. *)
Lemma invoke_all_settles (rest : list (list value)) :
  forall (acc : list value) (s : S),
    (List.length acc < n)%nat ->
    (forall k, (1 <= k < List.length rest)%nat ->
       (List.length (acc ++ List.concat (firstn k rest)) < n)%nat) ->
    invoke_all fn n (Awaiting acc) rest s
    = settle fn n (acc ++ List.concat rest) s.
Proof.
  induction rest as [| next rest' IH]; intros acc s L P.
  - simpl. rewrite app_nil_r. unfold settle.
    destruct (Nat.leb_spec n (List.length acc)); [lia | reflexivity].
  - simpl invoke_all. simpl invoke. destruct rest' as [| next' rest''].
    + simpl. rewrite app_nil_r.
      rewrite <- curried_settles. apply bindM_ret_r.
    + assert (L' : (List.length (acc ++ next) < n)%nat).
      { specialize (P 1%nat). simpl in P. rewrite app_nil_r in P.
        apply P. lia. }
      unfold bindM at 1. rewrite curried_short by exact L'.
      rewrite IH.
      * rewrite (concat_cons next). rewrite app_assoc. reflexivity.
      * exact L'.
      * intros k K. specialize (P (Datatypes.S k)).
        rewrite firstn_cons, concat_cons, app_assoc in P.
        apply P. simpl in *. lia.
Qed.
End CurryFacts.

(** C5: through a chain of calls [curry(fn)(c0)(c1)...] of which no proper
    prefix brings [fn.length] arguments, the arguments pile up from left to
    right; the chain ends in one run of [fn] on all of them, handing back
    its result, if they are [fn.length] or more, and otherwise in the
    function that waits, [fn] not run.  With [add3] each of the four ways of
    passing 1, 2, 3 gives 6. *)
Theorem C5_curry_accumulates {S : Type} `{Host S}
    (fn : list value -> M S value) (n : nat)
    (first : list value) (rest : list (list value)) (s : S) :
  (forall k, (1 <= k < List.length (first :: rest))%nat ->
     (List.length (List.concat (firstn k (first :: rest))) < n)%nat) ->
  curry_chain fn n first rest s
  = (if (n <=? List.length (List.concat (first :: rest)))%nat
     then (v <- fn (List.concat (first :: rest)) ;; ret (Returned v)) s
     else (Ok (Awaiting (List.concat (first :: rest))), s))
  /\ (let one := VNumber 1 in
      let two := VNumber 2 in
      let three := VNumber 3 in
      let six := (Ok (Returned (VNumber 6)), tt) in
      let run := curry_chain (H := plain_host unit)
                   (add3 (H := plain_host unit)) 3 in
      run [one; two; three] [] tt = six
      /\ run [one] [[two]; [three]] tt = six
      /\ run [one; two] [[three]] tt = six
      /\ run [one] [[two; three]] tt = six).
Proof.
  intros P. split; [| repeat split].
  unfold curry_chain, curry. destruct rest as [| next rest'].
  - simpl. rewrite app_nil_r. rewrite bindM_ret_r.
    rewrite curried_settles. apply settle_run.
  - assert (L : (List.length first < n)%nat).
    { specialize (P 1%nat). simpl in P. rewrite app_nil_r in P.
      apply P. lia. }
    unfold bindM at 1. rewrite curried_short by exact L.
    rewrite invoke_all_settles.
    + apply settle_run.
    + exact L.
    + intros k K. specialize (P (Datatypes.S k)).
      rewrite firstn_cons, concat_cons in P. apply P. simpl in *. lia.
Qed.

(** [curry(add3)(1)(2)(3)]: no proper prefix has three arguments. *)
Lemma C5_curry_accumulates_witness :
  curry_chain (H := plain_host unit) (add3 (H := plain_host unit)) 3
    [VNumber 1] [[VNumber 2]; [VNumber 3]] tt
  = (Ok (Returned (VNumber 6)), tt).
Proof.
  refine (eq_trans
            (proj1 (@C5_curry_accumulates unit (plain_host unit)
                      (add3 (H := plain_host unit)) 3%nat
                      [VNumber 1] [[VNumber 2]; [VNumber 3]] tt _)) _).
  - intros k K. simpl in K.
    destruct k as [| [| [| k]]]; simpl; lia.
  - reflexivity.
Defined.

(** ** compose *)

Section ComposeFacts.
Context {S : Type}.

(** The indices at or above the length of [xs] are past the end of
    [xs ++ ys]'s first part: below it the two lists agree. *)
Lemma reduceRight_from_app {A B : Type} (cb : B -> A -> M S B)
    (xs ys : list A) (k : nat) :
  (k <= List.length xs)%nat ->
  forall memo s,
    reduceRight_from cb (xs ++ ys) k memo s
    = reduceRight_from cb xs k memo s.
Proof.
  induction k as [| k IH]; intros K memo s; [reflexivity |].
  simpl. rewrite nth_error_app1 by lia.
  destruct (nth_error xs k) as [a |].
  - apply bindM_ext. intros m s'. apply IH. lia.
  - apply IH. lia.
Qed.

Lemma reduceRight_snoc {A B : Type} (cb : B -> A -> M S B)
    (xs : list A) (a : A) (init : B) (s : S) :
  reduceRight cb (xs ++ [a]) init s
  = (m <- cb init a ;; reduceRight cb xs m) s.
Proof.
  unfold reduceRight. rewrite length_app. simpl.
  rewrite Nat.add_1_r. simpl.
  rewrite nth_error_app2 by lia. rewrite Nat.sub_diag. simpl.
  apply bindM_ext. intros m s'. apply reduceRight_from_app. lia.
Qed.

Lemma nested_snoc (fns : list (value -> M S value))
    (f : value -> M S value) (x : value) (s : S) :
  nested (fns ++ [f]) x s = (y <- f x ;; nested fns y) s.
Proof.
  revert s. induction fns as [| g rest IH]; intros s; simpl.
  - unfold bindM at 1. simpl. symmetry. apply bindM_ret_r.
  - rewrite <- bindM_assoc. unfold bindM at 1. rewrite IH. reflexivity.
Qed.

Lemma compose_nested (fns : list (value -> M S value)) (x : value) (s : S) :
  compose fns x s = nested fns x s.
Proof.
  revert x s. induction fns as [| f rest IH] using rev_ind; intros x s.
  - reflexivity.
  - unfold compose in *. rewrite reduceRight_snoc, nested_snoc.
    apply bindM_ext. intros y s'. apply IH.
Qed.
End ComposeFacts.

(** C6: [compose(f1, ..., fn)(x)] is [f1(f2(...fn(x)))]: the last function
    runs first, on [x], and each result goes to the function on its left;
    [compose(toUpperCase, stringify, increment)(5)] is ['VALUE: 6']. *)
Theorem C6_compose_right_to_left :
  (forall (S : Type) (fns : list (value -> M S value)) (x : value) (s : S),
      compose fns x s = nested fns x s)
  /\ (forall (S : Type) (f g h : value -> M S value) (x : value) (s : S),
        compose [f; g; h] x s = (a <- h x ;; b <- g a ;; f b) s)
  /\ compose [toUpperCase; stringify (H := plain_host unit);
               increment (H := plain_host unit)]
       (VNumber 5) tt
     = (Ok (VString "VALUE: 6"), tt).
Proof.
  split; [| split].
  - intros. apply compose_nested.
  - intros. rewrite compose_nested. simpl. unfold bindM, ret.
    destruct (h x s) as [[a | e] s1]; [| reflexivity].
    destruct (g a s1) as [[b | e] s2]; reflexivity.
  - reflexivity.
Qed.

(** C9: [compose()] of no function is the identity: [compose()(x)] is [x],
    and nothing is run. *)
Theorem C9_compose_empty_is_identity {S : Type} (x : value) (s : S) :
  compose [] x s = (Ok x, s).
Proof. reflexivity. Qed.

(** ** is *)

Lemma is_throw_inversion (t x e : value) :
  is_ t x = Throw e -> t = Functor /\ x = VNull.
Proof.
  intros E.
  destruct t as [| | | | | | | | sy | f | | | | |];
    try destruct sy; try destruct f as [c | |]; try destruct c;
    destruct x; cbn in E; try discriminate E; split; reflexivity.
Qed.

(** C7, on the code as it is: [is(t, x)] throws on exactly one pair, the
    [Functor] tag with [null], where ['map' in x] is evaluated on [null];
    on every other tag and value it answers. *)
Theorem C7_is_throws_exactly_on_Functor_null (t x : value) :
  (exists e, is_ t x = Throw e) <-> (t = Functor /\ x = VNull).
Proof.
  split.
  - intros [e E]. exact (is_throw_inversion t x e E).
  - intros [-> ->]. eexists. reflexivity.
Qed.

(** ** match *)

Section MatchFacts.
Context {S : Type} `{Host S}.

(** On a falsy value that is not a string no key matches, [_] included:
    the test on the key stands behind [x &&]. *)
Lemma matches_falsy (k : string) (x : value) (s : S) :
  truthy x = false -> typeof x <> TString ->
  matches k x s = (Ok false, s).
Proof.
  intros F T. unfold matches.
  destruct x; simpl in *; try discriminate F; try congruence;
    rewrite ?F; reflexivity.
Qed.

Lemma match_loop_falsy (b : list (string * value)) (keys : list string)
    (x : value) (s : S) :
  truthy x = false -> typeof x <> TString ->
  match_loop b keys x s
  = (s' <- lift (to_string x) ;;
     throw (VError false ("No match for '" ++ s' ++ "'"))) s.
Proof.
  intros F T. induction keys as [| k rest IH]; simpl; [reflexivity |].
  unfold bindM at 1. rewrite matches_falsy by assumption. exact IH.
Qed.

(** On a truthy value that has a constructor the condition is decided
    without a throw, and the fallback key meets it. *)
Lemma matches_truthy (k : string) (x n : value) (s : S) :
  truthy x = true -> constructor_name x = Ok n ->
  exists c, matches k x s = (Ok c, s)
            /\ ((k =? "_")%string = true -> c = true).
Proof.
  intros T C. unfold matches.
  destruct (string_is x k); [exists true; split; reflexivity |].
  rewrite T. unfold bindM at 1, lift. rewrite C.
  destruct (string_is n k); [exists true; split; reflexivity |].
  destruct (k =? "Functor")%string eqn:F.
  - destruct (is_ Functor x) as [r | e] eqn:I.
    + unfold bindM, test, ret. destruct (is_true r).
      * exists true. split; reflexivity.
      * exists (k =? "_")%string. split; [reflexivity | auto].
    + destruct (is_throw_inversion _ _ _ I) as [_ ->]. discriminate T.
  - unfold bindM, ret. exists (k =? "_")%string. split; [reflexivity | auto].
Qed.

(** With the fallback among the keys, a truthy value that has a constructor
    always reaches an entry: the no-match error is not thrown. *)
Lemma match_loop_fallback (b : list (string * value)) (keys : list string)
    (x n : value) (s : S) :
  In "_" keys -> truthy x = true -> constructor_name x = Ok n ->
  exists k, In k keys /\ match_loop b keys x s = handle b k x s.
Proof.
  intros I T C. induction keys as [| k rest IH]; [destruct I |].
  destruct (matches_truthy k x n s T C) as [c [E U]].
  simpl match_loop. unfold bindM at 1. rewrite E. destruct c.
  - exists k. split; [left; reflexivity | reflexivity].
  - destruct I as [-> | I]; [specialize (U eq_refl); discriminate U |].
    destruct (IH I) as [k' [I' E']].
    exists k'. split; [right; exact I' | exact E'].
Qed.
End MatchFacts.

(** C3, on the code as it is: [match({_: 'default'}, 0)] throws the
    no-match error although the fallback is there, and so it does on
    [null], [false] and the empty string; on 1 the fallback answers.
    [match({foo: 'bar'}, 'baz')] throws, as the claim says. *)
Theorem C3_match_fallback_misses_falsy :
  let fallback := [("_", VString "default")] in
  let run := match_ (H := plain_host unit) in
  run fallback (VNumber 0) tt = (Throw (VError false "No match for '0'"), tt)
  /\ run fallback VNull tt = (Throw (VError false "No match for 'null'"), tt)
  /\ run fallback (VBoolean false) tt
     = (Throw (VError false "No match for 'false'"), tt)
  /\ run fallback (VString "") tt = (Throw (VError false "No match for ''"), tt)
  /\ run fallback (VNumber 1) tt = (Ok (Matched (VString "default")), tt)
  /\ run [("foo", VString "bar")] (VString "baz") tt
     = (Throw (VError false "No match for 'baz'"), tt).
Proof. repeat split. Qed.

(** ** The shallow merge *)

Lemma lookup_set_prop (k k' : string) (v : value)
    (props : list (string * value)) :
  lookup k (set_prop k' v props)
  = if (k =? k')%string then Some v else lookup k props.
Proof.
  induction props as [| [k1 v1] rest IH]; simpl; [reflexivity |].
  destruct (String.eqb_spec k' k1) as [-> | N1]; simpl.
  - destruct (k =? k1)%string; reflexivity.
  - rewrite IH. destruct (String.eqb_spec k k1) as [-> | N2]; [| reflexivity].
    destruct (String.eqb_spec k1 k'); [congruence | reflexivity].
Qed.

Lemma lookup_app (k : string) (l1 l2 : list (string * value)) :
  lookup k (l1 ++ l2)
  = match lookup k l1 with
    | Some v => Some v
    | None => lookup k l2
    end.
Proof.
  induction l1 as [| [k1 v1] rest IH]; simpl; [reflexivity |].
  destruct (k =? k1)%string; [reflexivity | exact IH].
Qed.

(** After [assign] a key holds what the source defined last for it, and
    what the target held if the source does not have it. *)
Lemma lookup_assign (src : list (string * value)) :
  forall (target : list (string * value)) (k : string),
    lookup k (assign target src)
    = match lookup k (rev src) with
      | Some v => Some v
      | None => lookup k target
      end.
Proof.
  unfold assign. induction src as [| [k' v'] rest IH]; intros target k; simpl.
  - reflexivity.
  - rewrite IH, lookup_app, lookup_set_prop. simpl.
    destruct (lookup k (rev rest)); [reflexivity |].
    destruct (k =? k')%string; reflexivity.
Qed.

(** With distinct keys the order of the entries does not matter. *)
Lemma lookup_permutation (l l' : list (string * value)) :
  Permutation l l' -> NoDup (List.map fst l) ->
  forall k, lookup k l = lookup k l'.
Proof.
  induction 1 as [| [k1 v1] l l' P IH | [k1 v1] [k2 v2] l | l l' l'' P1 IH1 P2 IH2];
    intros ND k; simpl.
  - reflexivity.
  - inversion ND; subst. rewrite IH by assumption. reflexivity.
  - simpl in ND. inversion ND as [| ? ? NI ND']; subst.
    destruct (String.eqb_spec k k2), (String.eqb_spec k k1); subst;
      try reflexivity.
    exfalso. apply NI. left. reflexivity.
  - rewrite IH1 by assumption. apply IH2.
    eapply Permutation_NoDup; [apply Permutation_map; eassumption | assumption].
Qed.

Lemma insert_index_permutation (n : N) (kv : string * value)
    (l : list (N * (string * value))) :
  Permutation (insert_index n kv l) ((n, kv) :: l).
Proof.
  induction l as [| [m e] rest IH]; simpl; [reflexivity |].
  destruct (n <? m)%N; [reflexivity |].
  rewrite IH. apply perm_swap.
Qed.

Lemma filter_split_permutation {A : Type} (f : A -> bool) (l : list A) :
  Permutation (filter f l ++ filter (fun a => negb (f a)) l) l.
Proof.
  induction l as [| a rest IH]; simpl; [reflexivity |].
  destruct (f a); simpl.
  - apply perm_skip. exact IH.
  - symmetry. apply Permutation_cons_app. symmetry. exact IH.
Qed.

(** Enumeration reorders the properties and loses none. *)
Lemma own_entries_permutation (props : list (string * value)) :
  Permutation (own_entries props) props.
Proof.
  pose (is_index := fun kv : string * value =>
                      match array_index (fst kv) with
                      | Some _ => true
                      | None => false
                      end).
  assert (F : forall l acc,
             Permutation
               (List.map snd
                  (fold_left
                     (fun acc kv =>
                        match array_index (fst kv) with
                        | Some n => insert_index n kv acc
                        | None => acc
                        end) l acc))
               (List.map snd acc ++ filter is_index l)).
  { induction l as [| kv rest IH]; intros acc; simpl.
    - rewrite app_nil_r. reflexivity.
    - rewrite IH. unfold is_index at 2.
      destruct (array_index (fst kv)) as [n |]; [| reflexivity].
      rewrite (Permutation_map snd (insert_index_permutation n kv acc)).
      simpl. apply Permutation_middle. }
  unfold own_entries. rewrite F. simpl.
  replace (filter (fun kv : string * value =>
                     match array_index (fst kv) with
                     | None => true
                     | Some _ => false
                     end) props)
    with (filter (fun kv => negb (is_index kv)) props).
  - apply filter_split_permutation.
  - apply filter_ext. intros kv. unfold is_index.
    destruct (array_index (fst kv)); reflexivity.
Qed.

(** [{...a, ...b}] of two objects with distinct keys each: a key of [b]
    holds the value [b] gives it, any other key the value [a] gives it. *)
Lemma spread_object_merges (proto_a proto_b : list fn_ref)
    (pa pb : list (string * value)) :
  NoDup (List.map fst pa) -> NoDup (List.map fst pb) ->
  exists merged,
    spread_object (VObject proto_a pa) (VObject proto_b pb)
    = VObject [Builtin cObject] merged
    /\ forall k, lookup k merged
                 = match lookup k pb with
                   | Some v => Some v
                   | None => lookup k pa
                   end.
Proof.
  intros Na Nb. eexists. split; [reflexivity |].
  intros k. rewrite !lookup_assign. simpl.
  assert (R : forall p, NoDup (List.map fst p) ->
                        lookup k (rev (own_entries p)) = lookup k p).
  { intros p Np. symmetry. apply lookup_permutation; [| exact Np].
    rewrite <- Permutation_rev. symmetry. apply own_entries_permutation. }
  rewrite (R pa Na), (R pb Nb).
  destruct (lookup k pb); [reflexivity |].
  destruct (lookup k pa); reflexivity.
Qed.

(** ** concat *)

Lemma length_append (a b : string) :
  String.length (a ++ b) = (String.length a + String.length b)%nat.
Proof.
  induction a as [| c a IH]; simpl; [reflexivity |].
  rewrite IH. reflexivity.
Qed.

Section ConcatFacts.
Context {S : Type} `{Host S}.

Lemma Optional_concat_spec (held v : value) (s : S) :
  Optional.concat (Optional.mk held) v s
  = if absent held then (Ok (Optional.mk v), s)
    else (r <- concat_dispatch held v ;; ret (Optional.mk r)) s.
Proof.
  unfold Optional.concat, bindM at 1. simpl. rewrite nullish_spec.
  destruct (absent held); reflexivity.
Qed.

Lemma Result_concat_spec (held v : value) (s : S) :
  Result.concat (Result.mk held) v s
  = if absent held then (Ok (Result.mk v), s)
    else (r <- concat_dispatch held v ;; ret (Result.mk r)) s.
Proof.
  unfold Result.concat, bindM at 1. simpl. rewrite nullish_spec.
  destruct (absent held); reflexivity.
Qed.

(** The test before the last branch of [concat] is [is(Object, x) ||
    is(Function)]: [is(Function)] hands back its inner function, which is
    truthy, so the test passes for every argument. *)
Lemma last_test_always_passes (v : value) (s : S) :
  orM (test (is_ Object v)) (test (is_ Function VUndefined)) s = (Ok true, s).
Proof. destruct v; reflexivity. Qed.

(** An argument of another type that is not [undefined] is merged. *)
Lemma concat_dispatch_another_type (held v : value) (s : S) :
  another_type v = true -> v <> VUndefined ->
  concat_dispatch held v s = (Ok (spread_object held v), s).
Proof.
  intros A N. destruct v; try discriminate A; try reflexivity.
  congruence.
Qed.

(** [undefined] is taken for a big integer: [is(BigInt, undefined)] hands
    back its inner function. *)
Lemma concat_dispatch_undefined (held : value) (s : S) :
  concat_dispatch held VUndefined s = lift (js_add held VUndefined) s.
Proof. reflexivity. Qed.

(** A sum is a string, a number or a big integer. *)
Lemma js_add_type (a b r : value) :
  js_add a b = Ok r ->
  typeof r = TString \/ typeof r = TNumber \/ typeof r = TBigInt.
Proof.
  unfold js_add. intros E.
  destruct (to_primitive a) as [pa | e]; [| discriminate E].
  destruct (to_primitive b) as [pb | e]; [| discriminate E].
  cbn [obind] in E.
  assert (T : forall x y t,
             obind (to_string x)
               (fun s => obind (to_string y)
                           (fun t => Ok (VString (s ++ t)))) = Ok t ->
             typeof t = TString).
  { intros x y t Et.
    destruct (to_string x) as [sx | e]; [| discriminate Et].
    cbn [obind] in Et.
    destruct (to_string y) as [sy | e]; [| discriminate Et].
    inversion Et. reflexivity. }
  assert (N : forall x y t,
             obind (to_numeric x)
               (fun na => obind (to_numeric y)
                  (fun nb =>
                     match na, nb with
                     | VBigInt m, VBigInt n => Ok (VBigInt (m + n))
                     | VBigInt _, _ | _, VBigInt _ =>
                         type_error "Cannot mix BigInt and other types"
                     | _, _ => Ok (number_add na nb)
                     end)) = Ok t ->
             typeof t = TNumber \/ typeof t = TBigInt).
  { intros x y t Et.
    destruct (to_numeric x) as [nx | e]; [| discriminate Et].
    cbn [obind] in Et.
    destruct (to_numeric y) as [ny | e]; [| discriminate Et].
    cbn [obind] in Et.
    assert (A : typeof (number_add nx ny) = TNumber).
    { unfold number_add, to_number.
      destruct nx, ny; try reflexivity;
        repeat match goal with
               | |- context [if ?c then _ else _] => destruct c
               end; reflexivity. }
    destruct nx, ny; try discriminate Et; inversion Et; subst;
      try (left; exact A); right; reflexivity. }
  destruct pa, pb;
    first [ left; exact (T _ _ _ E) | right; exact (N _ _ _ E) ].
Qed.
End ConcatFacts.

(** C2, on the code as it is: [concat] does not replace where the
    reference definition does.  A [Result] that holds an error is in its
    absorbing state, yet [concat] with a string appends the string to the
    text of the error, where [map], [apply] and [bind] of [Result] test
    [is(Error, this.x)].  And a present value is never replaced by an
    argument of another type, in either container: the code does have the
    branch, [new Optional(x)], but the test before it passes for every
    argument, so such an argument is merged into a new object, and
    [undefined] is added. *)
Theorem C2_concat_does_not_replace {S : Type} `{Host S} (s : S) :
  (forall (is_type : bool) (message x : string),
      concat_reference holds_error (VError is_type message) (VString x)
      = Some (VString x)
      /\ exists text,
          to_string (VError is_type message) = Ok text
          /\ Result.concat (Result.mk (VError is_type message)) (VString x) s
             = (Ok (Result.mk (VString (text ++ x))), s)
          /\ VString (text ++ x) <> VString x)
  /\ (forall held v : value,
        absent held = false -> another_type v = true ->
        (concat_reference absent held v = Some v
         /\ Optional.concat (Optional.mk held) v s
            = (if jstype_eqb (typeof v) TUndefined
               then (r <- lift (js_add held v) ;; ret (Optional.mk r)) s
               else (Ok (Optional.mk (spread_object held v)), s))
         /\ Optional.concat (Optional.mk held) v s
            <> (Ok (Optional.mk v), s))
        /\ (concat_reference holds_error held v = Some v
            /\ Result.concat (Result.mk held) v s
               = (if jstype_eqb (typeof v) TUndefined
                  then (r <- lift (js_add held v) ;; ret (Result.mk r)) s
                  else (Ok (Result.mk (spread_object held v)), s))
            /\ Result.concat (Result.mk held) v s <> (Ok (Result.mk v), s)))
  /\ (forall v : value,
        orM (test (is_ Object v)) (test (is_ Function VUndefined)) s
        = (Ok true, s)).
Proof.
  split; [| split].
  - intros is_type message x. split.
    + destruct is_type; reflexivity.
    + exists (if (message =? "")%string
              then (if is_type then "TypeError" else "Error")
              else (if is_type then "TypeError" else "Error")
                   ++ ": " ++ message).
      split; [reflexivity |]. split.
      * rewrite Result_concat_spec. cbn [absent].
        unfold bindM, ret. destruct is_type; reflexivity.
      * intros E. inversion E as [L].
        apply (f_equal String.length) in L.
        rewrite length_append in L.
        destruct (message =? "")%string, is_type; simpl in L; lia.
  - intros held v P A.
    assert (D : concat_dispatch held v s
                = (if jstype_eqb (typeof v) TUndefined
                   then lift (js_add held v) s
                   else (Ok (spread_object held v), s))).
    { destruct v; try discriminate A; reflexivity. }
    assert (U : concat_dispatch held v s <> (Ok v, s)).
    { rewrite D. destruct v; try discriminate A; cbn [typeof jstype_eqb].
      - unfold lift. intros E. inversion E as [J].
        destruct (js_add_type _ _ _ J) as [Q | [Q | Q]]; discriminate Q.
      - discriminate.
      - discriminate.
      - discriminate.
      - discriminate.
      - discriminate. }
    split; split.
    + unfold concat_reference. rewrite P, A. reflexivity.
    + split.
      * rewrite Optional_concat_spec, P. unfold bindM. rewrite D.
        destruct (jstype_eqb (typeof v) TUndefined); reflexivity.
      * rewrite Optional_concat_spec, P. unfold bindM, ret.
        intros E.
        destruct (concat_dispatch held v s) as [[r | e] s1] eqn:C;
          [| discriminate E].
        inversion E; subst. apply U. reflexivity.
    + unfold concat_reference. rewrite A.
      destruct (holds_error held); reflexivity.
    + split.
      * rewrite Result_concat_spec, P. unfold bindM. rewrite D.
        destruct (jstype_eqb (typeof v) TUndefined); reflexivity.
      * rewrite Result_concat_spec, P. unfold bindM, ret.
        intros E.
        destruct (concat_dispatch held v s) as [[r | e] s1] eqn:C;
          [| discriminate E].
        inversion E; subst. apply U. reflexivity.
  - intros v. apply last_test_always_passes.
Qed.

(** [Result.of(new Error('boom')).concat('x')] holds ['Error: boomx'], and
    [Optional.of(1).concat(Symbol())] holds an empty object, where the
    reference definition has ['x'] and the symbol. *)
Lemma C2_concat_does_not_replace_witness :
  Result.concat (H := plain_host unit) (Result.mk (VError false "boom"))
    (VString "x") tt
  = (Ok (Result.mk (VString "Error: boomx")), tt)
  /\ Optional.concat (H := plain_host unit) (Optional.mk (VNumber 1))
       (VSymbol (SymUser 0)) tt
     = (Ok (Optional.mk (VObject [Builtin cObject] [])), tt)
  /\ concat_reference holds_error (VError false "boom") (VString "x")
     = Some (VString "x")
  /\ concat_reference absent (VNumber 1) (VSymbol (SymUser 0))
     = Some (VSymbol (SymUser 0)).
Proof.
  destruct (@C2_concat_does_not_replace unit (plain_host unit) tt)
    as [E [A _]].
  destruct (E false "boom" "x") as [R [text [T [C _]]]].
  destruct (A (VNumber 1) (VSymbol (SymUser 0)) eq_refl eq_refl)
    as [[O [F _]] _].
  split; [| split; [| split]].
  - rewrite C. inversion T. reflexivity.
  - exact F.
  - exact R.
  - exact O.
Defined.

(** * Further properties *)

(** ** The laws of the containers *)

(** Mapping [identity] gives the container back: always for a [Result],
    and for an [Optional] that does not hold [null]. *)
Theorem map_identity_law {S : Type} (o : Optional.t) (r : Result.t) (s : S) :
  Optional.x o <> VNull ->
  Optional.map o identity s = (Ok o, s)
  /\ Result.map r identity s = (Ok r, s).
Proof.
  intros N. split.
  - rewrite Optional_map_spec. destruct o as [held]. simpl in *.
    unfold identity, bindM, ret, normalized.
    destruct held; try reflexivity. congruence.
  - rewrite Result_map_spec. destruct r as [held]. simpl.
    destruct (failed held); reflexivity.
Qed.

(** An [Optional] that holds 42, a [Result] that holds an error. *)
Lemma map_identity_law_witness :
  Optional.map (Optional.mk (VNumber 42)) identity tt
  = (Ok (Optional.mk (VNumber 42)), tt)
  /\ Result.map (Result.mk (VError false "e")) identity tt
     = (Ok (Result.mk (VError false "e")), tt).
Proof.
  apply (@map_identity_law unit (Optional.mk (VNumber 42))
           (Result.mk (VError false "e")) tt).
  simpl. discriminate.
Defined.

(** [map] is [bind] with the result wrapped by [of], in both containers. *)
Theorem map_is_bind_of {S : Type} (o : Optional.t) (r : Result.t)
    (f : value -> M S value) (s : S) :
  Optional.map o f s
  = Optional.bind o (fun v => y <- f v ;; Optional.of_ y) s
  /\ Result.map r f s
     = Result.bind r (fun v => y <- f v ;; Result.of_ y) s.
Proof.
  split.
  - rewrite Optional_map_spec, Optional_bind_spec.
    rewrite bindM_assoc. apply bindM_ext. intros y s'.
    unfold bindM at 1. rewrite Optional_of_spec. simpl.
    unfold ret, normalized. destruct y; reflexivity.
  - rewrite Result_map_spec, Result_bind_spec.
    destruct (failed (Result.x r)); [reflexivity |].
    apply bindM_ext. intros y s'. rewrite Result_of_spec. reflexivity.
Qed.

(** The monad laws of [Result]: [of] then [bind] is the function itself on
    a value that is neither an error nor [undefined]; [bind] with [of]
    gives the container back; two [bind]s associate. *)
Theorem Result_monad_laws {S : Type} (v : value) (r : Result.t)
    (f g : value -> M S Result.t) (s : S) :
  failed v = false ->
  (c <- Result.of_ v ;; Result.bind c f) s = f v s
  /\ Result.bind r Result.of_ s = (Ok r, s)
  /\ (c <- Result.bind r f ;; Result.bind c g) s
     = Result.bind r (fun a => c <- f a ;; Result.bind c g) s.
Proof.
  intros F. repeat split.
  - unfold bindM. rewrite Result_of_spec, Result_bind_spec. simpl.
    rewrite F. reflexivity.
  - rewrite Result_bind_spec. destruct r as [held]. simpl.
    destruct (failed held); [reflexivity | apply Result_of_spec].
  - unfold bindM at 1. rewrite !Result_bind_spec.
    destruct (failed (Result.x r)) eqn:Fr; [| reflexivity].
    rewrite Result_bind_spec, Fr. reflexivity.
Qed.

(** With [x => Result.of(x + 1)] on 1. *)
Lemma Result_monad_laws_witness :
  (c <- Result.of_ (VNumber 1) ;;
   Result.bind c (fun a => y <- increment (H := plain_host unit) a ;;
                           Result.of_ y)) tt
  = (Ok (Result.mk (VNumber 2)), tt).
Proof.
  refine (eq_trans
            (proj1 (@Result_monad_laws unit (VNumber 1) (Result.mk VNull)
                      (fun a => y <- increment (H := plain_host unit) a ;;
                                Result.of_ y)
                      (fun a => Result.of_ a) tt _)) _);
    reflexivity.
Defined.

(** The monad laws of [Optional], for functions that answer containers
    that do not hold [null]: [of] then [bind] on a present value is the
    function itself; [bind] with [of] gives back a container that does not
    hold [null]; two [bind]s associate. *)
Theorem Optional_monad_laws {S : Type} (v : value) (o : Optional.t)
    (f g : value -> M S Optional.t) (s : S) :
  absent v = false ->
  Optional.x o <> VNull ->
  (forall a s1 c s2, f a s1 = (Ok c, s2) -> Optional.x c <> VNull) ->
  (c <- Optional.of_ v ;; Optional.bind c f) s = f v s
  /\ Optional.bind o Optional.of_ s = (Ok o, s)
  /\ (c <- Optional.bind o f ;; Optional.bind c g) s
     = Optional.bind o (fun a => c <- f a ;; Optional.bind c g) s.
Proof.
  intros A N P.
  assert (Fix : forall c : Optional.t,
             Optional.x c <> VNull ->
             Optional.mk (normalized (Optional.x c)) = c).
  { intros [held] Hn. simpl in *. unfold normalized.
    destruct held; try reflexivity. congruence. }
  repeat split.
  - unfold bindM at 1. rewrite Optional_of_spec. unfold normalized.
    rewrite A. rewrite Optional_bind_spec. simpl. unfold bindM, ret.
    destruct (f v s) as [[c | e] s2] eqn:E; [| reflexivity].
    rewrite (Fix c (P _ _ _ _ E)). reflexivity.
  - rewrite Optional_bind_spec. unfold bindM. rewrite Optional_of_spec.
    simpl. unfold ret.
    assert (I : normalized (normalized (Optional.x o)) = Optional.x o).
    { destruct o as [held]. simpl in *. unfold normalized.
      destruct held; try reflexivity. congruence. }
    rewrite I. destruct o; reflexivity.
  - unfold bindM at 1. rewrite (Optional_bind_spec o f).
    rewrite (Optional_bind_spec o (fun a => c <- f a ;; Optional.bind c g)).
    unfold bindM, ret.
    destruct (f (Optional.x o) s) as [[c | e] s2] eqn:E; [| reflexivity].
    rewrite (Fix c (P _ _ _ _ E)).
    rewrite Optional_bind_spec. unfold bindM, ret.
    destruct (g (Optional.x c) s2) as [[d | e] s3]; [| reflexivity].
    simpl. unfold normalized. destruct (Optional.x d); reflexivity.
Qed.

(** With [x => Optional.of(x + 1)] on 1. *)
Lemma Optional_monad_laws_witness :
  (c <- Optional.of_ (VNumber 1) ;;
   Optional.bind c (fun a => y <- increment (H := plain_host unit) a ;;
                             Optional.of_ y)) tt
  = (Ok (Optional.mk (VNumber 2)), tt).
Proof.
  refine (eq_trans
            (proj1 (@Optional_monad_laws unit (VNumber 1)
                      (Optional.mk VUndefined)
                      (fun a => y <- increment (H := plain_host unit) a ;;
                                Optional.of_ y)
                      (fun a => Optional.of_ a) tt _ _ _)) _).
  - reflexivity.
  - simpl. discriminate.
  - intros a s1 c s2 E. unfold bindM in E.
    destruct (increment (H := plain_host unit) a s1) as [[y | e] s'];
      [| discriminate E].
    rewrite Optional_of_spec in E. inversion E. simpl.
    apply normalized_not_null.
  - reflexivity.
Defined.

(** ** match on the containers *)

(** [Optional.of(v).match({Some, None})] runs [None] when [v] is
    [undefined] or [null], and [Some] on [v] itself otherwise: one branch,
    never both. *)
Theorem Optional_of_match {S : Type} {R : Type} (v : value)
    (Some_ : value -> M S R) (None_ : M S R) (s : S) :
  (o <- Optional.of_ v ;; Optional.match_ o Some_ None_) s
  = if absent v then None_ s else Some_ v s.
Proof.
  unfold bindM at 1. rewrite Optional_of_spec.
  unfold Optional.match_, bindM. rewrite nullish_spec. simpl.
  unfold normalized. destruct v; reflexivity.
Qed.

(** A [Result] that holds [undefined] counts as failed: [map] and [bind]
    do not run the function and hand the receiver back, and [match] runs
    the [Error] branch on [undefined].  On any other value that is not an
    error, [match] runs the [Success] branch. *)
Theorem Result_undefined_is_failed {S : Type} {R : Type}
    (f : value -> M S value) (g : value -> M S Result.t)
    (Success_ Error_ : value -> M S R) (v : value) (s : S) :
  Result.map (Result.mk VUndefined) f s = (Ok (Result.mk VUndefined), s)
  /\ Result.bind (Result.mk VUndefined) g s = (Ok (Result.mk VUndefined), s)
  /\ Result.match_ (Result.mk VUndefined) Success_ Error_ s
     = Error_ VUndefined s
  /\ Result.match_ (Result.mk v) Success_ Error_ s
     = if failed v then Error_ v s else Success_ v s.
Proof.
  repeat split.
  unfold Result.match_, bindM. rewrite is_Error_spec. simpl.
  destruct (failed v); reflexivity.
Qed.

(** ** tryCatch *)

(** [tryCatch(fn, errorHandler)] hands on what [fn] returns without running
    the handler, and never throws when the handler never does. *)
Theorem tryCatch_never_throws {S : Type}
    (fn errorHandler : list value -> M S value) (args : list value) (s : S) :
  (forall a s1, exists v s2, errorHandler a s1 = (Ok v, s2)) ->
  (exists v s', tryCatch fn errorHandler args s = (Ok v, s'))
  /\ (forall v s', fn args s = (Ok v, s') ->
        tryCatch fn errorHandler args s = (Ok v, s'))
  /\ (forall e s', fn args s = (Throw e, s') ->
        tryCatch fn errorHandler args s = errorHandler (e :: args) s').
Proof.
  intros T. unfold tryCatch. repeat split.
  - destruct (fn args s) as [[v | e] s1]; [eauto | apply T].
  - intros v s' E. rewrite E. reflexivity.
  - intros e s' E. rewrite E. reflexivity.
Qed.

(** A function that always throws, with the handler [() => 0] of the
    tests. *)
Lemma tryCatch_never_throws_witness :
  exists v s',
    tryCatch (fun _ => throw (VError false "Division leads to indetermination"))
      (fun _ => ret (VNumber 0)) [VNumber 10; VNumber 0] tt
    = (Ok v, s').
Proof.
  apply (@tryCatch_never_throws unit
           (fun _ => throw (VError false "Division leads to indetermination"))
           (fun _ => ret (VNumber 0)) [VNumber 10; VNumber 0] tt).
  intros a s1. exists (VNumber 0), s1. reflexivity.
Defined.

(** ** and, or, xor *)

(** Called with both arguments at once or one after the other, [and], [or]
    and [xor] give the same; on booleans it is the conjunction, the
    disjunction and the exclusive or. *)
Theorem logic_curried_agree {S : Type} `{Host S} (a b : value) (p q : bool)
    (s : S) :
  (curry_chain and_fn 2 [a] [[b]] s = and_ [a; b] s
   /\ curry_chain or_fn 2 [a] [[b]] s = or_ [a; b] s
   /\ curry_chain xor_fn 2 [a] [[b]] s = xor [a; b] s)
  /\ (and_ [VBoolean p; VBoolean q] s = (Ok (Returned (VBoolean (p && q))), s)
      /\ or_ [VBoolean p; VBoolean q] s = (Ok (Returned (VBoolean (p || q))), s)
      /\ xor [VBoolean p; VBoolean q] s = (Ok (Returned (VBoolean (xorb p q))), s)).
Proof.
  split; [repeat split | repeat split; destruct p, q; reflexivity].
Qed.

(** ** map of core.ts *)

(** [map(fn, null)] throws before [fn] is run, [map(fn, undefined)] hands
    back the function that waits for [x], and on a value that is neither an
    object nor [undefined] (a number, a string, a function, ...) [map] is
    [Optional.of(x).map(fn)]. *)
Theorem core_map_edges {S : Type}
    (functor_map : value -> (list value -> M S value) -> M S value)
    (fn : list value -> M S value) (x : value) (s : S) :
  typeof x <> TObject -> typeof x <> TUndefined ->
  (exists e, map_ functor_map fn VNull s = (Throw e, s))
  /\ map_ functor_map fn VUndefined s = (Ok MapCurried, s)
  /\ map_ functor_map fn x s
     = (o <- Optional.map (Optional.mk x) (fun a => fn [a]) ;;
        ret (MapOptional o)) s.
Proof.
  intros NO NU.
  split; [eexists; reflexivity | split; [reflexivity |]].
  destruct x; simpl in NO, NU; try congruence; reflexivity.
Qed.

(** [map((x) => x + 1, 42)] is [Optional.of(43)], as in the tests. *)
Lemma core_map_edges_witness :
  map_ (fun _ _ => ret VUndefined)
    (fun args => increment (H := plain_host unit) (arg 0 args))
    (VNumber 42) tt
  = (Ok (MapOptional (Optional.mk (VNumber 43))), tt).
Proof.
  refine (eq_trans
            (proj2 (proj2 (@core_map_edges unit (fun _ _ => ret VUndefined)
                             (fun args => increment (H := plain_host unit)
                                            (arg 0 args))
                             (VNumber 42) tt _ _))) _);
    [discriminate | discriminate | reflexivity].
Defined.

(** ** Chains of Effect.map *)

Section EffectChains.
Context {S : Type}.

Lemma map_all_snoc (e : Effect.t S) (gs : list (value -> M S value))
    (g : value -> M S value) :
  map_all e (gs ++ [g]) = Effect.map (map_all e gs) g.
Proof. unfold map_all. rewrite fold_left_app. reflexivity. Qed.

Lemma Effect_map_rejected (e : Effect.t S) (g : value -> M S value)
    (args : list value) (s s1 : S) (reason : value) :
  Effect.call e args s = (Ok (VPromise false reason), s1) ->
  Effect.call (Effect.map e g) args s = (Ok (VPromise false reason), s1).
Proof.
  intros E. unfold Effect.call in *. simpl. unfold bindM at 1.
  rewrite E. reflexivity.
Qed.

Lemma Effect_map_fulfilled (e : Effect.t S) (g : value -> value)
    (args : list value) (s s1 : S) (v : value) :
  Effect.call e args s = (Ok (VPromise true v), s1) ->
  Effect.call (Effect.map e (pure_fn g)) args s
  = (Ok (Effect.resolve (g v)), s1).
Proof.
  intros E. unfold Effect.call in *. simpl. unfold bindM at 1.
  rewrite E. reflexivity.
Qed.
End EffectChains.

(** When the wrapped function answers a rejected promise, the call of the
    mapped effect answers the same rejection, however many transformations
    were registered, and none of them is run. *)
Theorem Effect_rejection_skips_all {S : Type} (f : list value -> M S value)
    (gs : list (value -> M S value)) (args : list value) (s s1 : S)
    (reason : value) :
  f args s = (Ok (VPromise false reason), s1) ->
  Effect.call (map_all (Effect.of_ f) gs) args s
  = (Ok (VPromise false reason), s1).
Proof.
  intros F. induction gs as [| g gs IH] using rev_ind.
  - exact F.
  - rewrite map_all_snoc. apply Effect_map_rejected. exact IH.
Qed.

(** A rejection goes past two spies; the log stays empty. *)
Lemma Effect_rejection_skips_all_witness :
  Effect.call
    (map_all (Effect.of_ (fun _ => ret (VPromise false (VString "no"))))
       [spy "g" (VNumber 1); spy "h" (VNumber 2)]) [] []
  = (Ok (VPromise false (VString "no")), []).
Proof.
  apply (@Effect_rejection_skips_all (list string)
           (fun _ => ret (VPromise false (VString "no")))
           [spy "g" (VNumber 1); spy "h" (VNumber 2)] [] [] []
           (VString "no")).
  reflexivity.
Defined.

(** A pipeline of any number of computing transformations, none of which
    answers [undefined] or a promise, on a wrapped function that answers a
    plain value: the call answers the value sent through the
    transformations in the order they were registered. *)
Theorem Effect_pipeline_in_order {S : Type} (f : list value -> M S value)
    (gs : list (value -> value)) (args : list value) (s s1 : S) (y : value) :
  f args s = (Ok y, s1) ->
  deferred y = false ->
  (forall g v, In g gs -> deferred (g v) = false) ->
  Effect.call (map_all (Effect.of_ f) (List.map pure_fn gs)) args s
  = (Ok (fold_left (fun v g => g v) gs y), s1).
Proof.
  intros F D P. induction gs as [| g gs IH] using rev_ind.
  - exact F.
  - rewrite List.map_app. simpl List.map. rewrite map_all_snoc.
    assert (IH' : Effect.call (map_all (Effect.of_ f) (List.map pure_fn gs))
                    args s
                  = (Ok (fold_left (fun v g => g v) gs y), s1)).
    { apply IH. intros g' v I. apply P. apply in_or_app. left. exact I. }
    rewrite (Effect_map_plain _ _ _ _ _ _ IH').
    + rewrite fold_left_app. reflexivity.
    + destruct gs as [| g0 gs'] using rev_ind; [exact D |].
      rewrite fold_left_app. simpl. apply P.
      apply in_or_app. left. apply in_or_app. right. left. reflexivity.
Qed.

(** [x => x + 1] then [x => x * 2] on a function that answers its first
    argument: 3 gives 8. *)
Lemma Effect_pipeline_in_order_witness :
  Effect.call
    (map_all (Effect.of_ (fun args => ret (arg 0 args)))
       (List.map pure_fn
          [fun v => match v with VNumber n => VNumber (n + 1) | _ => VNaN end;
           fun v => match v with VNumber n => VNumber (n * 2) | _ => VNaN end]))
    [VNumber 3] tt
  = (Ok (VNumber 8), tt).
Proof.
  apply (@Effect_pipeline_in_order unit (fun args => ret (arg 0 args))
           [fun v => match v with VNumber n => VNumber (n + 1) | _ => VNaN end;
            fun v => match v with VNumber n => VNumber (n * 2) | _ => VNaN end]
           [VNumber 3] tt tt (VNumber 3)).
  - reflexivity.
  - reflexivity.
  - intros g v [<- | [<- | []]]; destruct v; reflexivity.
Defined.

(** When the wrapped function answers a fulfilled promise and the
    computing transformations answer neither a promise nor a thenable, the
    transformations run on the value the promise was fulfilled with, in
    order, and the call answers a promise fulfilled with the last result;
    here a transformation may answer [undefined]. *)
Theorem Effect_fulfilled_pipeline {S : Type} (f : list value -> M S value)
    (gs : list (value -> value)) (args : list value) (s s1 : S) (v : value) :
  f args s = (Ok (VPromise true v), s1) ->
  (forall g a, In g gs -> Effect.follows (g a) = false) ->
  Effect.call (map_all (Effect.of_ f) (List.map pure_fn gs)) args s
  = (Ok (VPromise true (fold_left (fun a g => g a) gs v)), s1).
Proof.
  intros F P. induction gs as [| g gs IH] using rev_ind.
  - exact F.
  - rewrite List.map_app. simpl List.map. rewrite map_all_snoc.
    assert (IH' : Effect.call (map_all (Effect.of_ f) (List.map pure_fn gs))
                    args s
                  = (Ok (VPromise true (fold_left (fun a g => g a) gs v)), s1)).
    { apply IH. intros g' a I. apply P. apply in_or_app. left. exact I. }
    rewrite (Effect_map_fulfilled _ g _ _ _ _ IH').
    rewrite fold_left_app. simpl.
    assert (I : In g (gs ++ [g])) by (apply in_or_app; right; left; reflexivity).
    pose proof (P g (fold_left (fun a g0 => g0 a) gs v) I) as N.
    unfold Effect.resolve, Effect.follows in *.
    destruct (g (fold_left (fun a g0 => g0 a) gs v));
      try discriminate N; try reflexivity.
    rewrite N. reflexivity.
Qed.

(** A promise fulfilled with 3, then [x => x + 1] and [x => undefined]. *)
Lemma Effect_fulfilled_pipeline_witness :
  Effect.call
    (map_all (Effect.of_ (fun _ => ret (VPromise true (VNumber 3))))
       (List.map pure_fn
          [fun v => match v with VNumber n => VNumber (n + 1) | _ => VNaN end;
           fun _ => VUndefined]))
    [] tt
  = (Ok (VPromise true VUndefined), tt).
Proof.
  apply (@Effect_fulfilled_pipeline unit
           (fun _ => ret (VPromise true (VNumber 3)))
           [fun v => match v with VNumber n => VNumber (n + 1) | _ => VNaN end;
            fun _ => VUndefined]
           [] tt tt (VNumber 3)).
  - reflexivity.
  - intros g a [<- | [<- | []]]; [destruct a |]; reflexivity.
Defined.

(** ** memoize *)

Section MemoizeFacts.
Context {S : Type}.
Variable stringify : list value -> outcome string.
Variable fn : list value -> M S value.

(** A call never removes or changes an entry of the cache. *)
Lemma memoized_keeps (c c' : cache) (args : list value) (s s' : S)
    (r : value) (k : string) (v : value) :
  lookup k c = Some v ->
  memoized stringify fn c args s = (Ok (r, c'), s') ->
  lookup k c' = Some v.
Proof.
  intros L. unfold memoized, bindM, lift, ret.
  destruct (stringify args) as [key | e]; [| discriminate].
  destruct (lookup key c) as [hit |] eqn:K.
  - intros E. inversion E. subst. exact L.
  - destruct (fn args s) as [[result | e] s1]; [| discriminate].
    intros E. inversion E. subst. rewrite lookup_set_prop.
    destruct (String.eqb_spec k key) as [-> | N]; [congruence | exact L].
Qed.

Lemma memoized_all_keeps (calls : list (list value)) :
  forall (c c' : cache) (s s' : S) (rs : list value) (k : string) (v : value),
    lookup k c = Some v ->
    memoized_all stringify fn c calls s = (Ok (rs, c'), s') ->
    lookup k c' = Some v.
Proof.
  induction calls as [| args rest IH]; intros c c' s s' rs k v L.
  - simpl. unfold ret. intros E. inversion E. subst. exact L.
  - simpl. unfold bindM at 1.
    destruct (memoized stringify fn c args s) as [[[r c1] | e] s1] eqn:M1;
      [| discriminate].
    simpl. unfold bindM at 1.
    destruct (memoized_all stringify fn c1 rest s1) as [[[rs' c2] | e] s2]
      eqn:M2; [| discriminate].
    unfold ret. simpl. intros E. inversion E. subst.
    eapply IH; [| exact M2]. eapply memoized_keeps; eassumption.
Qed.

(** What a call stored or found is in the cache after it. *)
Lemma memoized_stores (c c' : cache) (args : list value) (s s' : S)
    (r : value) :
  memoized stringify fn c args s = (Ok (r, c'), s') ->
  exists key, stringify args = Ok key /\ lookup key c' = Some r.
Proof.
  unfold memoized, bindM, lift, ret.
  destruct (stringify args) as [key | e]; [| discriminate].
  destruct (lookup key c) as [hit |] eqn:K.
  - intros E. inversion E. subst. exists key. split; [reflexivity | exact K].
  - destruct (fn args s) as [[result | e] s1]; [| discriminate].
    intros E. inversion E. subst. exists key. split; [reflexivity |].
    rewrite lookup_set_prop, String.eqb_refl. reflexivity.
Qed.
End MemoizeFacts.

(** Once a call of a memoized function has returned, every later call
    whose arguments serialise to the same key, after any calls in between,
    returns the same result without running the function: the state and
    the cache are left as they are. *)
Theorem memoize_repeats {S : Type} (stringify : list value -> outcome string)
    (fn : list value -> M S value) (c c1 c2 : cache)
    (args args' : list value) (between : list (list value))
    (r : value) (rs : list value) (s s1 s2 s3 : S) :
  memoized stringify fn c args s = (Ok (r, c1), s1) ->
  memoized_all stringify fn c1 between s1 = (Ok (rs, c2), s2) ->
  stringify args' = stringify args ->
  memoized stringify fn c2 args' s3 = (Ok (r, c2), s3).
Proof.
  intros M1 M2 K.
  destruct (memoized_stores _ _ _ _ _ _ _ _ M1) as [key [Ek L1]].
  pose proof (memoized_all_keeps _ _ _ _ _ _ _ _ _ _ L1 M2) as L2.
  unfold memoized, bindM, lift. rewrite K, Ek, L2. reflexivity.
Qed.

(** A counting function memoized on the text of its arguments: the second
    call with [1] answers the first result and the count stays at 2. *)
Lemma memoize_repeats_witness :
  memoized (fun args => to_string (H := plain_host nat) (VArray args))
    (fun args n => (Ok (VNumber (Z.of_nat n)), Datatypes.S n))
    [("1", VNumber 0); ("2", VNumber 1)] [VNumber 1] 2%nat
  = (Ok (VNumber 0, [("1", VNumber 0); ("2", VNumber 1)]), 2%nat).
Proof.
  apply (@memoize_repeats nat
           (fun args => to_string (H := plain_host nat) (VArray args))
           (fun args n => (Ok (VNumber (Z.of_nat n)), Datatypes.S n))
           [] [("1", VNumber 0)] [("1", VNumber 0); ("2", VNumber 1)]
           [VNumber 1] [VNumber 1] [[VNumber 2]]
           (VNumber 0) [VNumber 1] 0%nat 1%nat 2%nat 2%nat);
    reflexivity.
Defined.

(** ** List *)

(** [slice(0, k)] and [slice(k)] split the array, for every [k], negative
    or past the end; and every slice is a run of neighbours of the array. *)
Theorem slice_splits (k x : Z) (y : option Z) (xs : list value) :
  (List_.slice 0 (Some k) xs ++ List_.slice k None xs = xs)%list
  /\ exists before after,
       xs = (before ++ List_.slice x y xs ++ after)%list.
Proof.
  split.
  - unfold List_.slice.
    set (len := Z.of_nat (List.length xs)).
    assert (R : 0 <= List_.relative len k <= len).
    { unfold List_.relative, len. destruct (Z.ltb_spec k 0); lia. }
    assert (Z0 : List_.relative len 0 = 0).
    { unfold List_.relative, len. simpl. lia. }
    rewrite Z0. simpl skipn. rewrite Z.sub_0_r.
    rewrite (firstn_all2 (n := Z.to_nat (len - List_.relative len k))).
    + apply firstn_skipn.
    + rewrite length_skipn. unfold len in *. lia.
  - unfold List_.slice.
    exists (firstn (Z.to_nat (List_.relative (Z.of_nat (List.length xs)) x)) xs).
    eexists. rewrite firstn_skipn. rewrite firstn_skipn. reflexivity.
Qed.

Section ListFacts.
Context {S : Type}.

Lemma reject_from (fn : value -> nat -> M S value) (xs : list value) :
  forall (i : nat) (acc : list value) (s : S),
    List_.reduce_from
      (fun acc x i => r <- fn x i ;;
                      ret (if truthy r then acc else (acc ++ [x])%list))
      xs i acc s
    = (ys <- List_.filter_from (fun x i => r <- fn x i ;; ret (not_ r)) xs i ;;
       ret (acc ++ ys)%list) s.
Proof.
  induction xs as [| x rest IH]; intros i acc s; simpl.
  - unfold bindM, ret. rewrite app_nil_r. reflexivity.
  - unfold bindM at 1 2 4 5 6.
    destruct (fn x i s) as [[r | e] s1]; [| reflexivity].
    simpl. unfold ret at 1. rewrite IH. unfold bindM, ret.
    destruct (List_.filter_from _ rest (Datatypes.S i) s1) as [[ys | e] s2];
      [| reflexivity].
    destruct (truthy r); simpl; [reflexivity |].
    rewrite <- app_assoc. reflexivity.
Qed.

Lemma filter_from_ext (fn fn' : value -> nat -> M S value)
    (xs : list value) :
  (forall x i s, fn x i s = fn' x i s) ->
  forall i s, List_.filter_from fn xs i s = List_.filter_from fn' xs i s.
Proof.
  intros E. induction xs as [| x rest IH]; intros i s; simpl; [reflexivity |].
  unfold bindM. rewrite E.
  destruct (fn' x i s) as [[r | e] s1]; [| reflexivity].
  rewrite IH. reflexivity.
Qed.

Lemma filter_from_pure (q : value -> value) (xs : list value) :
  forall i (s : S),
    List_.filter_from (fun x _ => ret (q x)) xs i s
    = (Ok (List.filter (fun x => truthy (q x)) xs), s).
Proof.
  induction xs as [| x rest IH]; intros i s; simpl; [reflexivity |].
  unfold bindM. unfold ret at 1. rewrite IH. unfold ret.
  destruct (truthy (q x)); reflexivity.
Qed.

Lemma two_groups_pass (pa fa : list value) (x : value) :
  List_.set_group 0 (List_.group 0 (List_.two_groups pa fa) ++ [x])%list
    (List_.two_groups pa fa)
  = List_.two_groups (pa ++ [x])%list fa.
Proof. destruct pa, fa; reflexivity. Qed.

Lemma two_groups_fail (pa fa : list value) (x : value) :
  List_.set_group 1 (List_.group 1 (List_.two_groups pa fa) ++ [x])%list
    (List_.two_groups pa fa)
  = List_.two_groups pa (fa ++ [x])%list.
Proof. destruct pa, fa; reflexivity. Qed.

Lemma partition_from (p : value -> nat -> bool) (xs : list value) :
  forall (i : nat) (pa fa : list value) (s : S),
    List_.reduce_from
      (fun xss x i =>
         r <- ret (if p x i then List_.Pass else List_.Fail) ;;
         let j := List_.bucket_index r in
         ret (List_.set_group j (List_.group j xss ++ [x])%list xss))
      xs i (List_.two_groups pa fa) s
    = (Ok (List_.two_groups
             (pa ++ List_.select p xs i)%list
             (fa ++ List_.select (fun x i => negb (p x i)) xs i)%list), s).
Proof.
  induction xs as [| x rest IH]; intros i pa fa s;
    cbn [List_.reduce_from List_.select].
  - rewrite !app_nil_r. reflexivity.
  - unfold bindM at 1 2. unfold ret at 1 2.
    destruct (p x i); cbn [List_.bucket_index negb].
    + rewrite two_groups_pass, IH. rewrite <- app_assoc. reflexivity.
    + rewrite two_groups_fail, IH. rewrite <- app_assoc. reflexivity.
Qed.
End ListFacts.

(** [reject(fn)] is [filter] with the answer of [fn] negated: the same
    elements, the same calls of [fn] in the same order. *)
Theorem reject_is_filter_not {S : Type} (fn : value -> nat -> M S value)
    (xs : list value) (s : S) :
  List_.reject fn xs s
  = List_.filter (fun x i => r <- fn x i ;; ret (not_ r)) xs s.
Proof.
  unfold List_.reject, List_.filter. rewrite reject_from.
  unfold bindM, ret.
  destruct (List_.filter_from _ xs 0%nat s) as [[ys | e] s1]; reflexivity.
Qed.

(** With a classifier that answers [true] or [false], [partition] puts the
    elements that pass at index 0 and the ones that fail at index 1, each
    in their order; the result has two entries only if some element
    fails, with a hole at index 0 if none passes, one entry if all pass,
    and none for the empty array. *)
Theorem partition_groups {S : Type} (p : value -> nat -> bool)
    (xs : list value) (s : S) :
  List_.partition
    (fun x i => ret (if p x i then List_.Pass else List_.Fail)) xs s
  = (Ok (List_.two_groups (List_.select p xs 0)
           (List_.select (fun x i => negb (p x i)) xs 0)), s).
Proof.
  unfold List_.partition.
  change (@nil (option (list value))) with (List_.two_groups [] []).
  rewrite partition_from. reflexivity.
Qed.

(** [compact] keeps the elements that are not [empty], in order: [0],
    [false] and [NaN] stay, [null], [undefined], [''], [[]] and [{}] go;
    compacting twice changes nothing more. *)
Theorem compact_keeps_non_empty {S : Type} (xs : list value) (s : S) :
  List_.compact xs s = (Ok (List.filter (fun x => negb (empty x)) xs), s)
  /\ (ys <- List_.compact xs ;; List_.compact ys) s = List_.compact xs s.
Proof.
  assert (C : forall l (s0 : S),
             List_.compact l s0
             = (Ok (List.filter (fun x => negb (empty x)) l), s0)).
  { intros l s0. unfold List_.compact, List_.filter.
    rewrite (filter_from_ext _
               (fun x _ => ret (not_ (VBoolean (empty x))))).
    - rewrite filter_from_pure. reflexivity.
    - intros x i s1. reflexivity. }
  split; [apply C |].
  unfold bindM. rewrite !C.
  f_equal. f_equal.
  induction xs as [| x rest IH]; simpl; [reflexivity |].
  destruct (empty x) eqn:E; simpl; [exact IH |].
  rewrite E. simpl. rewrite IH. reflexivity.
Qed.

Lemma toPairs_from (xs : list value) (suffix : list value) :
  forall (before acc : list value),
    xs = (before ++ suffix)%list ->
    List_.fold_index
      (fun xxs it i =>
         if Nat.even i
         then (xxs ++ [VArray [it; nth (Datatypes.S i) xs VUndefined]])%list
         else xxs) suffix (List.length before) acc
    = (acc ++ (if Nat.even (List.length before)
               then List_.pairs suffix
               else List_.pairs (List.tl suffix)))%list.
Proof.
  induction suffix as [| x rest IH]; intros before acc E.
  - simpl. destruct (Nat.even (List.length before)); rewrite app_nil_r;
      reflexivity.
  - cbn [List_.fold_index].
    assert (E' : xs = ((before ++ [x]) ++ rest)%list).
    { rewrite <- app_assoc. exact E. }
    assert (L : List.length (before ++ [x]) = Datatypes.S (List.length before)).
    { rewrite length_app. simpl. lia. }
    rewrite <- L. rewrite (IH _ _ E'). rewrite L.
    rewrite Nat.even_succ, <- Nat.negb_even.
    destruct (Nat.even (List.length before)); simpl negb; cbv iota.
    + rewrite <- app_assoc. f_equal.
      assert (N : nth (Datatypes.S (List.length before)) xs VUndefined
                  = nth 0 rest VUndefined).
      { rewrite E. rewrite app_nth2 by lia.
        replace (Datatypes.S (List.length before) - List.length before)%nat
          with 1%nat by lia.
        reflexivity. }
      rewrite N. destruct rest as [| b rest']; reflexivity.
    + reflexivity.
Qed.

Lemma toPairs_pairs (xs : list value) : List_.toPairs xs = List_.pairs xs.
Proof.
  unfold List_.toPairs.
  exact (toPairs_from xs xs [] [] eq_refl).
Qed.

Lemma pairs_facts (n : nat) :
  forall xs, (List.length xs <= n)%nat ->
    List_.flatten (List_.pairs xs)
    = (if Nat.even (List.length xs) then xs else xs ++ [VUndefined])%list
    /\ List.length (List_.pairs xs) = Nat.div2 (Datatypes.S (List.length xs)).
Proof.
  induction n as [| n IH]; intros xs L.
  - destruct xs; [split; reflexivity | simpl in L; lia].
  - destruct xs as [| a [| b rest]]; [split; reflexivity .. |].
    assert (L' : (List.length rest <= n)%nat) by (simpl in L; lia).
    destruct (IH rest L') as [F N].
    split.
    + cbn [List_.pairs]. unfold List_.flatten in *.
      cbn [flat_map]. rewrite F.
      cbn [List.length]. rewrite Nat.even_succ_succ.
      destruct (Nat.even (List.length rest)); reflexivity.
    + cbn [List_.pairs List.length]. rewrite N. reflexivity.
Qed.

(** [toPairs] then [flatten] gives the array back when its length is even,
    and the array followed by [undefined] when it is odd: the last
    element is paired with the missing one.  There are as many pairs as
    half the length, rounded up. *)
Theorem toPairs_flatten (xs : list value) :
  List_.flatten (List_.toPairs xs)
  = (if Nat.even (List.length xs) then xs else xs ++ [VUndefined])%list
  /\ List.length (List_.toPairs xs) = Nat.div2 (Datatypes.S (List.length xs)).
Proof.
  rewrite toPairs_pairs. apply (pairs_facts (List.length xs)). lia.
Qed.

Lemma length_map_index (cb : value -> nat -> value) (xs : list value) :
  forall i, List.length (List_.map_index cb xs i) = List.length xs.
Proof.
  induction xs as [| x rest IH]; intros i; simpl; [reflexivity |].
  rewrite IH. reflexivity.
Qed.

Lemma nth_map_index (cb : value -> nat -> value) (xs : list value) :
  forall i k, (k < List.length xs)%nat ->
    nth k (List_.map_index cb xs i) VUndefined
    = cb (nth k xs VUndefined) (i + k)%nat.
Proof.
  induction xs as [| x rest IH]; intros i k K; simpl in K; [lia |].
  destruct k as [| k]; simpl.
  - rewrite Nat.add_0_r. reflexivity.
  - rewrite IH by lia. f_equal. lia.
Qed.

(** What [swap] leaves at an index within the array. *)
Lemma nth_swap (i j : Z) (xs : list value) (k : nat) :
  (k < List.length xs)%nat ->
  nth k (List_.swap i j xs) VUndefined
  = if i =? Z.of_nat k then List_.at_ xs j
    else if j =? Z.of_nat k then List_.at_ xs i
    else nth k xs VUndefined.
Proof.
  intros K. unfold List_.swap. rewrite nth_map_index by exact K. reflexivity.
Qed.

(** [swap(i, j)] on two indices within the array exchanges the two
    elements, keeps the length, and undoes itself when applied again. *)
Theorem swap_involutive (i j : Z) (xs : list value) :
  0 <= i < Z.of_nat (List.length xs) ->
  0 <= j < Z.of_nat (List.length xs) ->
  List_.swap i j (List_.swap i j xs) = xs
  /\ List.length (List_.swap i j xs) = List.length xs
  /\ List_.at_ (List_.swap i j xs) i = List_.at_ xs j
  /\ List_.at_ (List_.swap i j xs) j = List_.at_ xs i.
Proof.
  intros I J.
  assert (LenG : forall ys, List.length (List_.swap i j ys) = List.length ys).
  { intros ys. unfold List_.swap. apply length_map_index. }
  pose proof (LenG xs) as Len.
  assert (At : forall ys k, 0 <= k ->
                 List_.at_ ys k = nth (Z.to_nat k) ys VUndefined).
  { intros ys k K. unfold List_.at_.
    destruct (Z.ltb_spec k 0); [lia | reflexivity]. }
  assert (Ai : List_.at_ (List_.swap i j xs) i = List_.at_ xs j).
  { rewrite At by lia. rewrite nth_swap by lia.
    rewrite Z2Nat.id by lia. rewrite Z.eqb_refl. reflexivity. }
  assert (Aj : List_.at_ (List_.swap i j xs) j = List_.at_ xs i).
  { rewrite At by lia. rewrite nth_swap by lia.
    rewrite Z2Nat.id by lia. rewrite Z.eqb_refl.
    destruct (Z.eqb_spec i j) as [-> | N]; reflexivity. }
  repeat split; try assumption.
  apply (nth_ext _ _ VUndefined VUndefined).
  - rewrite LenG. exact Len.
  - intros k K. rewrite LenG, Len in K.
    rewrite nth_swap by (rewrite Len; exact K).
    rewrite Aj, Ai. rewrite nth_swap by exact K.
    destruct (Z.eqb_spec i (Z.of_nat k)) as [Ei | Ni].
    + rewrite (At xs i) by lia. rewrite Ei, Nat2Z.id. reflexivity.
    + destruct (Z.eqb_spec j (Z.of_nat k)) as [Ej | Nj]; [| reflexivity].
      rewrite (At xs j) by lia. rewrite Ej, Nat2Z.id. reflexivity.
Qed.

(** Exchanging the ends of [[1, 2, 3, 4, 5]], twice. *)
Lemma swap_involutive_witness :
  List_.swap 0 4
    (List_.swap 0 4 [VNumber 1; VNumber 2; VNumber 3; VNumber 4; VNumber 5])
  = [VNumber 1; VNumber 2; VNumber 3; VNumber 4; VNumber 5].
Proof.
  apply (proj1 (swap_involutive 0 4
                  [VNumber 1; VNumber 2; VNumber 3; VNumber 4; VNumber 5]
                  ltac:(simpl; lia) ltac:(simpl; lia))).
Defined.

Lemma parts_from (xs : list value) (mask : list value) :
  forall (before suffix acc : list value),
    xs = (before ++ suffix)%list ->
    (List.length mask <= List.length suffix)%nat ->
    List_.fold_index
      (fun xxs b i =>
         if truthy b then (xxs ++ [nth i xs VUndefined])%list else xxs)
      mask (List.length before) acc
    = (acc ++ List.map fst
                (List.filter (fun xb => truthy (snd xb))
                   (List.combine suffix mask)))%list.
Proof.
  induction mask as [| b rest IH]; intros before suffix acc E L.
  - simpl. destruct suffix; simpl; rewrite app_nil_r; reflexivity.
  - destruct suffix as [| x suffix']; [simpl in L; lia |].
    cbn [List_.fold_index List.combine List.filter snd].
    assert (E' : xs = ((before ++ [x]) ++ suffix')%list).
    { rewrite <- app_assoc. exact E. }
    assert (N : nth (List.length before) xs VUndefined = x).
    { rewrite E. rewrite app_nth2 by lia. rewrite Nat.sub_diag. reflexivity. }
    assert (Lb : List.length (before ++ [x]) = Datatypes.S (List.length before)).
    { rewrite length_app. simpl. lia. }
    rewrite <- Lb. rewrite (IH _ suffix' _ E') by (simpl in L; lia).
    rewrite N. destruct (truthy b); simpl.
    + rewrite <- app_assoc. reflexivity.
    + reflexivity.
Qed.

(** [parts(p, xs)] keeps the elements of [xs] whose entry in the mask [p]
    is truthy, in order; the elements past the end of the mask and the
    entries of the mask past the end of [xs] count for nothing. *)
Theorem parts_selects (p xs : list value) :
  List_.parts p xs
  = List.map fst (List.filter (fun xb => truthy (snd xb)) (List.combine xs p)).
Proof.
  unfold List_.parts.
  destruct (Nat.ltb_spec (List.length xs) (List.length p)) as [Lt | Ge].
  - assert (Sl : List_.slice 0 (Some (Z.of_nat (List.length xs))) p
                 = firstn (List.length xs) p).
    { unfold List_.slice, List_.relative. simpl skipn.
      replace (Z.of_nat (List.length xs) <? 0) with false
        by (symmetry; apply Z.ltb_ge; lia).
      simpl (0 <? 0). cbv iota.
      rewrite Z.min_l by lia. rewrite Z.min_l by lia.
      rewrite Z.sub_0_r, Nat2Z.id. reflexivity. }
    rewrite Sl.
    assert (Lf : (List.length (firstn (List.length xs) p) <= List.length xs)%nat).
    { rewrite length_firstn. lia. }
    pose proof (parts_from xs (firstn (List.length xs) p) [] xs [] eq_refl Lf)
      as P.
    cbn [List.length app] in P. rewrite P.
    rewrite <- combine_firstn_l. reflexivity.
  - pose proof (parts_from xs p [] xs [] eq_refl Ge) as P.
    cbn [List.length app] in P. exact P.
Qed.

(** ** The first generation of the library *)

Section LegacyFacts.
Context {S : Type}.

(** On an array without [undefined] the reduction is the fold from the
    left, with the index. *)
Lemma legacy_reduce_defined {B : Type} (fn : B -> value -> nat -> M S B)
    (xs : list value) :
  (forall x, In x xs -> Legacy.def x = true) ->
  forall memo i s,
    Legacy.reduce xs fn memo i s = List_.reduce_from fn xs i memo s.
Proof.
  induction xs as [| x rest IH]; intros D memo i s; simpl; [reflexivity |].
  rewrite (D x (or_introl eq_refl)).
  apply bindM_ext. intros m s'. apply IH.
  intros y I. apply D. right. exact I.
Qed.

Lemma reduce_from_pure {B : Type} (cb : B -> value -> nat -> B)
    (xs : list value) :
  forall i acc (s : S),
    List_.reduce_from (fun a x i => ret (cb a x i)) xs i acc s
    = (Ok (List_.fold_index cb xs i acc), s).
Proof.
  induction xs as [| x rest IH]; intros i acc s; simpl; [reflexivity |].
  unfold bindM, ret at 1. apply IH.
Qed.

Lemma legacy_length_defined (xs : list value) (s : S) :
  (forall x, In x xs -> Legacy.def x = true) ->
  Legacy.length xs s = (Ok (Z.of_nat (List.length xs)), s).
Proof.
  intros D. unfold Legacy.length.
  rewrite (legacy_reduce_defined _ xs D).
  rewrite (reduce_from_pure (fun memo _ _ => memo + 1)).
  f_equal. f_equal.
  assert (G : forall l i acc,
             List_.fold_index (fun memo _ _ => memo + 1) l i acc
             = acc + Z.of_nat (List.length l)).
  { induction l as [| x rest IH]; intros i acc; simpl List_.fold_index.
    - simpl. lia.
    - rewrite IH. simpl List.length. lia. }
  rewrite G. lia.
Qed.

Lemma legacy_map_from (fn : value -> nat -> M S value) (xs : list value) :
  forall i acc s,
    List_.reduce_from
      (fun memo x i => y <- fn x i ;; ret (memo ++ [y])%list) xs i acc s
    = (ys <- List_.map_from fn xs i ;; ret (acc ++ ys)%list) s.
Proof.
  induction xs as [| x rest IH]; intros i acc s; simpl.
  - unfold bindM, ret. rewrite app_nil_r. reflexivity.
  - unfold bindM at 1 2 4 5.
    destruct (fn x i s) as [[y | e] s1]; [| reflexivity].
    unfold ret at 1. rewrite IH. unfold bindM, ret.
    destruct (List_.map_from fn rest (Datatypes.S i) s1) as [[ys | e] s2];
      [| reflexivity].
    rewrite <- app_assoc. reflexivity.
Qed.

Lemma fold_first (n : Z) (xs : list value) :
  forall i acc,
    List_.fold_index
      (fun memo x i => if Z.of_nat i <? n then (memo ++ [x])%list else memo)
      xs i acc
    = (acc ++ firstn (Z.to_nat (n - Z.of_nat i)) xs)%list.
Proof.
  induction xs as [| x rest IH]; intros i acc; simpl List_.fold_index.
  - rewrite firstn_nil, app_nil_r. reflexivity.
  - rewrite IH. destruct (Z.ltb_spec (Z.of_nat i) n) as [Lt | Ge].
    + replace (Z.to_nat (n - Z.of_nat i))
        with (Datatypes.S (Z.to_nat (n - Z.of_nat (Datatypes.S i)))) by lia.
      simpl. rewrite <- app_assoc. reflexivity.
    + replace (Z.to_nat (n - Z.of_nat i)) with 0%nat by lia.
      replace (Z.to_nat (n - Z.of_nat (Datatypes.S i))) with 0%nat by lia.
      reflexivity.
Qed.

Lemma fold_last (k : Z) (xs : list value) :
  forall i acc,
    List_.fold_index
      (fun memo x i => if k <=? Z.of_nat i then (memo ++ [x])%list else memo)
      xs i acc
    = (acc ++ skipn (Z.to_nat (k - Z.of_nat i)) xs)%list.
Proof.
  induction xs as [| x rest IH]; intros i acc; simpl List_.fold_index.
  - rewrite skipn_nil, app_nil_r. reflexivity.
  - rewrite IH. destruct (Z.leb_spec k (Z.of_nat i)) as [Le | Gt].
    + replace (Z.to_nat (k - Z.of_nat i)) with 0%nat by lia.
      replace (Z.to_nat (k - Z.of_nat (Datatypes.S i))) with 0%nat by lia.
      simpl. rewrite <- app_assoc. reflexivity.
    + replace (Z.to_nat (k - Z.of_nat i))
        with (Datatypes.S (Z.to_nat (k - Z.of_nat (Datatypes.S i)))) by lia.
      reflexivity.
Qed.

Lemma legacy_reverse_defined (xs : list value) (s : S) :
  (forall x, In x xs -> Legacy.def x = true) ->
  Legacy.reverse xs s = (Ok (rev xs), s).
Proof.
  intros D. unfold Legacy.reverse.
  rewrite (legacy_reduce_defined _ xs D).
  rewrite (reduce_from_pure (fun memo x _ => x :: memo)).
  f_equal. f_equal.
  assert (G : forall l i acc,
             List_.fold_index (fun memo x _ => x :: memo) l i acc
             = (rev l ++ acc)%list).
  { induction l as [| x rest IH]; intros i acc; simpl; [reflexivity |].
    rewrite IH, <- app_assoc. reflexivity. }
  rewrite G, app_nil_r. reflexivity.
Qed.

(** [Array.prototype.reduceRight] is the fold from the left over the
    reversed array. *)
Lemma reduceRight_rev {B : Type} (cb : B -> value -> M S B)
    (xs : list value) :
  forall memo s,
    reduceRight cb xs memo s
    = List_.reduce_from (fun m x _ => cb m x) (rev xs) 0 memo s.
Proof.
  assert (G : forall l i memo s,
             List_.reduce_from (fun m x _ => cb m x) l i memo s
             = List_.reduce_from (fun m x _ => cb m x) l 0 memo s).
  { induction l as [| x rest IH]; intros i memo s; simpl; [reflexivity |].
    apply bindM_ext. intros m s'. rewrite IH. symmetry. apply IH. }
  induction xs as [| a xs IH] using rev_ind; intros memo s.
  - reflexivity.
  - rewrite reduceRight_snoc, rev_app_distr. simpl.
    apply bindM_ext. intros m s'. rewrite IH. symmetry. apply G.
Qed.

Lemma reduceRight_map {A B : Type}
    (cb : value -> B -> M S value) (g : A -> B) (xs : list A) :
  forall memo s,
    reduceRight cb (List.map g xs) memo s
    = reduceRight (fun m x => cb m (g x)) xs memo s.
Proof.
  induction xs as [| a xs IH] using rev_ind; intros memo s.
  - reflexivity.
  - rewrite List.map_app. simpl List.map. rewrite !reduceRight_snoc.
    apply bindM_ext. intros m s'. apply IH.
Qed.
End LegacyFacts.

Lemma legacy_reduce_cut {S : Type} {B : Type}
    (before after : list value) (fn : B -> value -> nat -> M S B) :
  forall memo i s,
    Legacy.reduce (before ++ VUndefined :: after) fn memo i s
    = Legacy.reduce before fn memo i s.
Proof.
  induction before as [| x rest IH]; intros memo i s; simpl.
  - reflexivity.
  - destruct (Legacy.def x); [| reflexivity].
    apply bindM_ext. intros m s'. apply IH.
Qed.

(** The reduction of the first generation ends at the first [undefined]
    element: what follows it is never visited. *)
Theorem legacy_reduce_stops_at_undefined {S : Type} {B : Type}
    (before after : list value) (fn : B -> value -> nat -> M S B)
    (memo : B) (i : nat) (s : S) :
  Legacy.reduce (before ++ VUndefined :: after) fn memo i s
  = Legacy.reduce before fn memo i s.
Proof. apply legacy_reduce_cut. Qed.

(** [length] counts the elements before the first [undefined], and
    [reverse] and [map] work on those elements only: on an array without
    [undefined] they are the length, the reversal and the map of
    [list.ts]. *)
Theorem legacy_length_reverse_map {S : Type} (xs after : list value)
    (fn : value -> nat -> M S value) (s : S) :
  (forall x, In x xs -> Legacy.def x = true) ->
  Legacy.length (xs ++ VUndefined :: after) s
  = (Ok (Z.of_nat (List.length xs)), s)
  /\ Legacy.reverse (xs ++ VUndefined :: after) s = (Ok (rev xs), s)
  /\ Legacy.map (xs ++ VUndefined :: after) fn s = List_.map fn xs s.
Proof.
  intros D. repeat split.
  - unfold Legacy.length. rewrite legacy_reduce_cut.
    apply (legacy_length_defined xs s D).
  - unfold Legacy.reverse. rewrite legacy_reduce_cut.
    apply (legacy_reverse_defined xs s D).
  - unfold Legacy.map, List_.map. rewrite legacy_reduce_cut.
    rewrite (legacy_reduce_defined _ xs D). rewrite legacy_map_from.
    unfold bindM, ret.
    destruct (List_.map_from fn xs 0%nat s) as [[ys | e] s1]; reflexivity.
Qed.

(** [[1, 2, undefined, 4]] has length 2 here. *)
Lemma legacy_length_reverse_map_witness :
  Legacy.length [VNumber 1; VNumber 2; VUndefined; VNumber 4] tt
  = (Ok 2, tt).
Proof.
  apply (proj1 (@legacy_length_reverse_map unit [VNumber 1; VNumber 2]
                  [VNumber 4] (fun x _ => ret x) tt
                  ltac:(intros x [<- | [<- | []]]; reflexivity))).
Defined.

(** On an array without [undefined], [first(xs, n)] is the first [n]
    elements and [last(xs, n)] the last [n]; all of them when [n] is the
    length or more, none when [n] is zero or less. *)
Theorem legacy_first_last {S : Type} (xs : list value) (n : Z) (s : S) :
  (forall x, In x xs -> Legacy.def x = true) ->
  Legacy.first xs n s = (Ok (firstn (Z.to_nat n) xs), s)
  /\ Legacy.last xs n s
     = (Ok (skipn (Z.to_nat (Z.of_nat (List.length xs) - n)) xs), s).
Proof.
  intros D. split.
  - unfold Legacy.first. rewrite (legacy_reduce_defined _ xs D).
    rewrite (reduce_from_pure
               (fun memo x i =>
                  if Z.of_nat i <? n then (memo ++ [x])%list else memo)).
    rewrite fold_first. simpl. rewrite Z.sub_0_r. reflexivity.
  - unfold Legacy.last. rewrite (legacy_reduce_defined _ xs D).
    assert (E : forall l i acc (s0 : S),
               List_.reduce_from
                 (fun memo x i =>
                    len <- Legacy.length xs ;;
                    ret (if len - n <=? Z.of_nat i
                         then (memo ++ [x])%list else memo)) l i acc s0
               = List_.reduce_from
                   (fun memo x i =>
                      ret (if Z.of_nat (List.length xs) - n <=? Z.of_nat i
                           then (memo ++ [x])%list else memo)) l i acc s0).
    { induction l as [| x rest IH]; intros i acc s0; simpl; [reflexivity |].
      unfold bindM at 1 2. rewrite (legacy_length_defined xs s0 D).
      unfold bindM at 2. unfold ret at 1 3. apply IH. }
    rewrite E.
    rewrite (reduce_from_pure
               (fun memo x i =>
                  if Z.of_nat (List.length xs) - n <=? Z.of_nat i
                  then (memo ++ [x])%list else memo)).
    rewrite fold_last. simpl. rewrite Z.sub_0_r. reflexivity.
Qed.

(** The tests' [first([1..5], 3)] and [last([1..5], 3)]. *)
Lemma legacy_first_last_witness :
  Legacy.first [VNumber 1; VNumber 2; VNumber 3; VNumber 4; VNumber 5] 3 tt
  = (Ok [VNumber 1; VNumber 2; VNumber 3], tt)
  /\ Legacy.last [VNumber 1; VNumber 2; VNumber 3; VNumber 4; VNumber 5] 3 tt
     = (Ok [VNumber 3; VNumber 4; VNumber 5], tt).
Proof.
  apply (@legacy_first_last unit
           [VNumber 1; VNumber 2; VNumber 3; VNumber 4; VNumber 5] 3 tt).
  intros x [<- | [<- | [<- | [<- | [<- | []]]]]]; reflexivity.
Defined.

Lemma legacy_slice_from (xs : list value) (i : Z) (y : value) :
  (forall x, In x xs -> Legacy.def x = true) ->
  forall curr,
    Legacy.slice xs i y curr
    = if (Z.of_nat curr <=? i) && (i <? Z.of_nat (curr + List.length xs))
      then (firstn (Z.to_nat (i - Z.of_nat curr)) xs
            ++ y :: skipn (Z.to_nat (i - Z.of_nat curr)) xs)%list
      else xs.
Proof.
  induction xs as [| x rest IH]; intros D curr.
  - simpl. destruct (Z.leb_spec (Z.of_nat curr) i);
      destruct (Z.ltb_spec i (Z.of_nat (curr + 0))); simpl; try reflexivity.
    lia.
  - simpl Legacy.slice. rewrite (D x (or_introl eq_refl)).
    rewrite IH by (intros z I; apply D; right; exact I).
    destruct (Z.eqb_spec (Z.of_nat curr) i) as [E | N].
    + subst i.
      replace (Z.of_nat (Datatypes.S curr) <=? Z.of_nat curr) with false
        by (symmetry; apply Z.leb_gt; lia).
      rewrite Z.leb_refl.
      replace (Z.of_nat curr <? Z.of_nat (curr + List.length (x :: rest)))
        with true by (symmetry; apply Z.ltb_lt; simpl; lia).
      rewrite Z.sub_diag. reflexivity.
    + destruct (Z.leb_spec (Z.of_nat (Datatypes.S curr)) i) as [Le | Gt].
      * replace (Z.of_nat curr <=? i) with true
          by (symmetry; apply Z.leb_le; lia).
        replace (curr + List.length (x :: rest))%nat
          with (Datatypes.S curr + List.length rest)%nat by (simpl; lia).
        cbn [andb].
        destruct (Z.ltb_spec i (Z.of_nat (Datatypes.S curr + List.length rest)));
          [| reflexivity].
        replace (Z.to_nat (i - Z.of_nat curr))
          with (Datatypes.S (Z.to_nat (i - Z.of_nat (Datatypes.S curr))))
          by lia.
        reflexivity.
      * replace (Z.of_nat curr <=? i) with false
          by (symmetry; apply Z.leb_gt; lia).
        reflexivity.
Qed.

(** On an array without [undefined], [slice(xs, i, y)] puts [y] in before
    the element at index [i] when [i] is an index of the array; for any
    other [i], the length included, the array comes back as it is: [y]
    cannot be put at the end. *)
Theorem legacy_slice_inserts (xs : list value) (i : Z) (y : value) :
  (forall x, In x xs -> Legacy.def x = true) ->
  Legacy.slice xs i y 0
  = if (0 <=? i) && (i <? Z.of_nat (List.length xs))
    then (firstn (Z.to_nat i) xs ++ y :: skipn (Z.to_nat i) xs)%list
    else xs.
Proof.
  intros D. rewrite (legacy_slice_from xs i y D 0). simpl Z.of_nat.
  rewrite Z.sub_0_r. reflexivity.
Qed.

(** The tests' [slice([1, 2, 4, 5], 2, 3)]; at index 4 nothing goes in. *)
Lemma legacy_slice_inserts_witness :
  Legacy.slice [VNumber 1; VNumber 2; VNumber 4; VNumber 5] 2 (VNumber 3) 0
  = [VNumber 1; VNumber 2; VNumber 3; VNumber 4; VNumber 5]
  /\ Legacy.slice [VNumber 1; VNumber 2; VNumber 4; VNumber 5] 4 (VNumber 6) 0
     = [VNumber 1; VNumber 2; VNumber 4; VNumber 5].
Proof.
  split.
  - apply (legacy_slice_inserts
             [VNumber 1; VNumber 2; VNumber 4; VNumber 5] 2 (VNumber 3)).
    intros x [<- | [<- | [<- | [<- | []]]]]; reflexivity.
  - apply (legacy_slice_inserts
             [VNumber 1; VNumber 2; VNumber 4; VNumber 5] 4 (VNumber 6)).
    intros x [<- | [<- | [<- | [<- | []]]]]; reflexivity.
Defined.

(** On an array without [undefined], and with a callback that does not
    look at the index, [reduceRight] of the first generation is
    [Array.prototype.reduceRight]. *)
Theorem legacy_reduceRight_agrees {S : Type} (xs : list value)
    (cb : value -> value -> M S value) (memo : value) (s : S) :
  (forall x, In x xs -> Legacy.def x = true) ->
  Legacy.reduceRight xs (fun m x _ => cb m x) memo s
  = reduceRight cb xs memo s.
Proof.
  intros D. unfold Legacy.reduceRight, bindM.
  rewrite (legacy_reverse_defined xs s D).
  rewrite legacy_reduce_defined.
  - symmetry. apply reduceRight_rev.
  - intros x I. apply D. apply in_rev. exact I.
Qed.

(** The tests' [reduceRight([[0, 1], [2, 3]], flatten, [])], with the
    callback [(memo, x) => memo.concat(x)] on arrays. *)
Lemma legacy_reduceRight_agrees_witness :
  Legacy.reduceRight
    [VArray [VNumber 0; VNumber 1]; VArray [VNumber 2; VNumber 3]]
    (fun m x _ =>
       match m, x with
       | VArray a, VArray b => ret (VArray (a ++ b))
       | _, _ => ret VUndefined
       end) (VArray []) tt
  = (Ok (VArray [VNumber 2; VNumber 3; VNumber 0; VNumber 1]), tt).
Proof.
  refine (eq_trans
            (@legacy_reduceRight_agrees unit
               [VArray [VNumber 0; VNumber 1]; VArray [VNumber 2; VNumber 3]]
               (fun m x =>
                  match m, x with
                  | VArray a, VArray b => ret (VArray (a ++ b))
                  | _, _ => ret VUndefined
                  end) (VArray []) tt _) _).
  - intros x [<- | [<- | []]]; reflexivity.
  - reflexivity.
Defined.

(** [compose] of the first generation and [compose] of [core.ts] agree on
    every list of functions: both run the last function first. *)
Theorem legacy_compose_agrees {S : Type} `{Host S} (fs : list fn_ref)
    (x : value) (s : S) :
  Legacy.compose (List.map VFunction fs) x s
  = compose (List.map (fun f a => impl f [a]) fs) x s.
Proof.
  assert (D : forall v, In v (List.map VFunction fs) -> Legacy.def v = true).
  { intros v I. apply in_map_iff in I. destruct I as [f [<- _]]. reflexivity. }
  unfold Legacy.compose, Legacy.flow, bindM.
  rewrite (legacy_reverse_defined _ s D).
  rewrite legacy_reduce_defined
    by (intros v I; apply D; apply in_rev; exact I).
  rewrite <- (reduceRight_rev (fun memo fn => call_value fn [memo])).
  rewrite (reduceRight_map (fun memo fn => call_value fn [memo]) VFunction).
  unfold compose.
  rewrite (reduceRight_map (fun memo (g : value -> M S value) => g memo)
             (fun f a => impl f [a])).
  reflexivity.
Qed.

(** [partition] of the first generation works on the elements before the
    first [undefined], all of them when there is none: it answers both
    groups, the ones of these elements that pass and the ones that fail,
    and runs the predicate twice on each of them, and on no element after
    the [undefined]. *)
Theorem legacy_partition_runs_twice (p : value -> bool)
    (xs after : list value) (n : nat) :
  (forall x, In x xs -> Legacy.def x = true) ->
  Legacy.partition xs (counting_predicate p) n
  = (Ok (List.filter p xs, List.filter (fun x => negb (p x)) xs),
     (n + 2 * List.length xs)%nat)
  /\ Legacy.partition (xs ++ VUndefined :: after) (counting_predicate p) n
     = (Ok (List.filter p xs, List.filter (fun x => negb (p x)) xs),
        (n + 2 * List.length xs)%nat).
Proof.
  intros D.
  assert (C : Legacy.partition (xs ++ VUndefined :: after)
                (counting_predicate p) n
              = Legacy.partition xs (counting_predicate p) n).
  { unfold Legacy.partition, Legacy.filter, Legacy.reject, bindM.
    rewrite legacy_reduce_cut.
    destruct (Legacy.reduce xs _ [] 0%nat n) as [[a | e] n1];
      [| reflexivity].
    rewrite legacy_reduce_cut. reflexivity. }
  rewrite C. clear C.
  enough (E : Legacy.partition xs (counting_predicate p) n
              = (Ok (List.filter p xs, List.filter (fun x => negb (p x)) xs),
                 (n + 2 * List.length xs)%nat))
    by (split; exact E).
  assert (F : forall l acc m,
             List_.reduce_from
               (fun memo x (_ : nat) =>
                  r <- counting_predicate p x ;;
                  ret (if truthy r then (memo ++ [x])%list else memo))
               l 0 acc m
             = (Ok (acc ++ List.filter p l)%list, (m + List.length l)%nat)).
  { induction l as [| x rest IH]; intros acc m; simpl.
    - rewrite app_nil_r, Nat.add_0_r. reflexivity.
    - unfold bindM at 1 2. unfold counting_predicate at 1. unfold ret at 1.
      simpl truthy.
      assert (G : forall i a m', List_.reduce_from
                   (fun memo x0 (_ : nat) =>
                      r <- counting_predicate p x0 ;;
                      ret (if truthy r then (memo ++ [x0])%list else memo))
                   rest i a m'
                 = List_.reduce_from
                   (fun memo x0 (_ : nat) =>
                      r <- counting_predicate p x0 ;;
                      ret (if truthy r then (memo ++ [x0])%list else memo))
                   rest 0 a m').
      { clear. induction rest as [| z rest IH]; intros i a m'; simpl;
          [reflexivity |].
        apply bindM_ext. intros b s'. rewrite IH. symmetry. apply IH. }
      rewrite G, IH. destruct (p x); simpl.
      + rewrite <- app_assoc. f_equal. lia.
      + f_equal. lia. }
  assert (R : forall l acc m,
             List_.reduce_from
               (fun memo x (_ : nat) =>
                  r <- counting_predicate p x ;;
                  ret (if truthy r then memo else (memo ++ [x])%list))
               l 0 acc m
             = (Ok (acc ++ List.filter (fun x => negb (p x)) l)%list,
                (m + List.length l)%nat)).
  { induction l as [| x rest IH]; intros acc m; simpl.
    - rewrite app_nil_r, Nat.add_0_r. reflexivity.
    - unfold bindM at 1 2. unfold counting_predicate at 1. unfold ret at 1.
      simpl truthy.
      assert (G : forall i a m', List_.reduce_from
                   (fun memo x0 (_ : nat) =>
                      r <- counting_predicate p x0 ;;
                      ret (if truthy r then memo else (memo ++ [x0])%list))
                   rest i a m'
                 = List_.reduce_from
                   (fun memo x0 (_ : nat) =>
                      r <- counting_predicate p x0 ;;
                      ret (if truthy r then memo else (memo ++ [x0])%list))
                   rest 0 a m').
      { clear. induction rest as [| z rest IH]; intros i a m'; simpl;
          [reflexivity |].
        apply bindM_ext. intros b s'. rewrite IH. symmetry. apply IH. }
      rewrite G, IH. destruct (p x); simpl.
      + f_equal. lia.
      + rewrite <- app_assoc. f_equal. lia. }
  unfold Legacy.partition, Legacy.filter, Legacy.reject.
  unfold bindM at 1.
  rewrite (legacy_reduce_defined _ xs D), F.
  unfold bindM at 1.
  rewrite (legacy_reduce_defined _ xs D), R.
  unfold ret. simpl. f_equal. lia.
Qed.

(** The tests' partition of [[0, 1, 2, 3]] by a predicate takes 8 calls;
    on [[0, 1, undefined, 2, 3]] it answers [[[0], [1]]] after 4 calls. *)
Lemma legacy_partition_runs_twice_witness :
  Legacy.partition [VNumber 0; VNumber 1; VNumber 2; VNumber 3]
    (counting_predicate
       (fun x => match x with VNumber n => Z.even n | _ => false end)) 0%nat
  = (Ok ([VNumber 0; VNumber 2], [VNumber 1; VNumber 3]), 8%nat)
  /\ Legacy.partition
       [VNumber 0; VNumber 1; VUndefined; VNumber 2; VNumber 3]
       (counting_predicate
          (fun x => match x with VNumber n => Z.even n | _ => false end))
       0%nat
     = (Ok ([VNumber 0], [VNumber 1]), 4%nat).
Proof.
  split.
  - apply (proj1 (legacy_partition_runs_twice
                    (fun x => match x with VNumber n => Z.even n | _ => false end)
                    [VNumber 0; VNumber 1; VNumber 2; VNumber 3] [] 0%nat
                    ltac:(intros x [<- | [<- | [<- | [<- | []]]]];
                          reflexivity))).
  - apply (proj2 (legacy_partition_runs_twice
                    (fun x => match x with VNumber n => Z.even n | _ => false end)
                    [VNumber 0; VNumber 1] [VNumber 2; VNumber 3] 0%nat
                    ltac:(intros x [<- | [<- | []]]; reflexivity))).
Defined.

(** ** min and max *)

Lemma xlt_asymmetric (a b : Legacy.xnum) :
  Legacy.xlt a b = true -> Legacy.xlt b a = false.
Proof.
  destruct a, b; simpl; try reflexivity; try discriminate.
  intros L. apply Z.ltb_lt in L. apply Z.ltb_ge. lia.
Qed.

(** Among numbers other than [NaN], "not smaller" is transitive. *)
Lemma xlt_false_trans (a b c : Legacy.xnum) :
  Legacy.is_nan b = false ->
  Legacy.xlt a b = false -> Legacy.xlt b c = false -> Legacy.xlt a c = false.
Proof.
  destruct a, b, c; simpl; try reflexivity; try discriminate.
  intros _ L1 L2. apply Z.ltb_ge in L1, L2. apply Z.ltb_ge. lia.
Qed.

(** [max] passes over [NaN]. *)
Lemma max_skips_nan (xs : list Legacy.xnum) :
  forall r,
    Legacy.max_ xs r
    = Legacy.max_ (List.filter (fun x => negb (Legacy.is_nan x)) xs) r.
Proof.
  induction xs as [| x rest IH]; intros r; [reflexivity |].
  cbn [Legacy.max_ List.filter].
  destruct x; cbn [Legacy.is_nan negb Legacy.max_];
    try (destruct (Legacy.xlt r _); apply IH).
  replace (Legacy.xlt r Legacy.NaN) with false by (destruct r; reflexivity).
  apply IH.
Qed.

Lemma max_from (xs : list Legacy.xnum) :
  forall r,
    Legacy.is_nan r = false ->
    (forall x, In x xs -> Legacy.is_nan x = false) ->
    let m := Legacy.max_ xs r in
    (m = r \/ In m xs) /\ Legacy.is_nan m = false
    /\ Legacy.xlt m r = false
    /\ forall y, In y xs -> Legacy.xlt m y = false.
Proof.
  induction xs as [| x rest IH]; intros r R D.
  - simpl. repeat split.
    + left. reflexivity.
    + exact R.
    + destruct r; simpl; try reflexivity. apply Z.ltb_irrefl.
    + intros y [].
  - cbn [Legacy.max_].
    assert (X : Legacy.is_nan x = false) by (apply D; left; reflexivity).
    assert (D' : forall y, In y rest -> Legacy.is_nan y = false)
      by (intros y I; apply D; right; exact I).
    destruct (Legacy.xlt r x) eqn:L.
    + destruct (IH x X D') as [I [N [G U]]]. cbn zeta in *.
      repeat split.
      * right. destruct I as [-> | I]; [left; reflexivity | right; exact I].
      * exact N.
      * apply (xlt_false_trans _ x r X G). apply xlt_asymmetric. exact L.
      * intros y [<- | Iy]; [exact G | apply U; exact Iy].
    + destruct (IH r R D') as [I [N [G U]]]. cbn zeta in *.
      repeat split.
      * destruct I as [-> | I]; [left; reflexivity | right; right; exact I].
      * exact N.
      * exact G.
      * intros y [<- | Iy]; [| apply U; exact Iy].
        apply (xlt_false_trans _ r x R G L).
Qed.

(** [max] of an array of numbers passes over [NaN].  When no element is a
    number other than [NaN] it is [-Infinity], which need not be an element:
    [max([NaN])] is [-Infinity].  Otherwise it is one of the elements other
    than [NaN], and no element is greater. *)
Theorem legacy_max_is_greatest (xs : list Legacy.xnum) :
  let numbers := List.filter (fun x => negb (Legacy.is_nan x)) xs in
  Legacy.max xs = Legacy.max numbers
  /\ match numbers with
     | [] => Legacy.max xs = Legacy.NegInf
     | _ :: _ =>
         In (Legacy.max xs) numbers
         /\ forall y, In y xs -> Legacy.xlt (Legacy.max xs) y = false
     end.
Proof.
  cbn zeta. unfold Legacy.max.
  pose proof (max_skips_nan xs Legacy.NegInf) as K.
  split; [exact K |].
  rewrite K.
  assert (D : forall x,
             In x (List.filter (fun x => negb (Legacy.is_nan x)) xs) ->
             Legacy.is_nan x = false).
  { intros x I. apply filter_In in I. destruct I as [_ N].
    destruct (Legacy.is_nan x); [discriminate N | reflexivity]. }
  destruct (max_from _ Legacy.NegInf eq_refl D) as [I [N [G U]]].
  cbn zeta in *.
  destruct (List.filter (fun x => negb (Legacy.is_nan x)) xs)
    as [| x rest] eqn:F; [reflexivity |].
  split.
  - destruct I as [E | I]; [| exact I].
    (* nothing was greater than -Infinity: the first number is -Infinity *)
    pose proof (U x (or_introl eq_refl)) as Ux. rewrite E in Ux |- *.
    assert (Nx : Legacy.is_nan x = false) by (apply D; left; reflexivity).
    left. destruct x; try discriminate Ux; try discriminate Nx. reflexivity.
  - intros y Iy. destruct (Legacy.is_nan y) eqn:Ny.
    + destruct y; try discriminate Ny.
      destruct (Legacy.max_ (x :: rest) Legacy.NegInf); reflexivity.
    + apply U. rewrite <- F. apply filter_In. split; [exact Iy |].
      rewrite Ny. reflexivity.
Qed.

(** [max([NaN])] is [-Infinity], and [max([3, NaN, 5, 1])] is one of 3, 5
    and 1. *)
Lemma legacy_max_is_greatest_witness :
  Legacy.max [Legacy.NaN] = Legacy.NegInf
  /\ In (Legacy.max [Legacy.Num 3; Legacy.NaN; Legacy.Num 5; Legacy.Num 1])
       [Legacy.Num 3; Legacy.Num 5; Legacy.Num 1].
Proof.
  split.
  - exact (proj2 (legacy_max_is_greatest [Legacy.NaN])).
  - exact (proj1 (proj2 (legacy_max_is_greatest
                           [Legacy.Num 3; Legacy.NaN; Legacy.Num 5;
                            Legacy.Num 1]))).
Defined.

Lemma min_from (y : Legacy.xnum) (rest : list Legacy.xnum)
    (p : list Legacy.xnum) :
  forall res r,
    Legacy.min_ p res = r -> Legacy.xlt y r = false ->
    Legacy.min_ (p ++ y :: rest) res = r.
Proof.
  induction p as [| x p' IH]; intros res r E L.
  - cbn [Legacy.min_ app] in *. subst r. rewrite L. reflexivity.
  - cbn [Legacy.min_ app] in *.
    destruct (Legacy.xlt x res).
    + apply IH; assumption.
    + exact E.
Qed.

(** [min] gives up at the first element that is not smaller than the one
    before it: whatever follows that element, smaller numbers included,
    does not change the answer. *)
Theorem legacy_min_stops_early (p : list Legacy.xnum) (y : Legacy.xnum)
    (rest : list Legacy.xnum) (r : Legacy.xnum) :
  Legacy.min p = r -> Legacy.xlt y r = false ->
  Legacy.min (p ++ y :: rest) = r.
Proof. unfold Legacy.min. apply min_from. Qed.

(** [min([3, 5, 1])] is 3. *)
Lemma legacy_min_stops_early_witness :
  Legacy.min [Legacy.Num 3; Legacy.Num 5; Legacy.Num 1] = Legacy.Num 3.
Proof.
  apply (legacy_min_stops_early [Legacy.Num 3] (Legacy.Num 5)
           [Legacy.Num 1] (Legacy.Num 3)); reflexivity.
Defined.

(** ** concat where the table has a row *)

Lemma alike_refl (a : value) : alike a a.
Proof. destruct a; simpl; auto. Qed.

Lemma lookup_without (k : string) (pv ph : list (string * value)) :
  lookup k (filter (fun kv => negb (has_key (fst kv) pv)) ph)
  = if has_key k pv then None else lookup k ph.
Proof.
  induction ph as [| [k1 v1] rest IH]; simpl.
  - destruct (has_key k pv); reflexivity.
  - destruct (has_key k1 pv) eqn:K1; simpl.
    + rewrite IH. destruct (String.eqb_spec k k1) as [-> | N].
      * rewrite K1. reflexivity.
      * reflexivity.
    + destruct (String.eqb_spec k k1) as [-> | N].
      * rewrite K1. reflexivity.
      * exact IH.
Qed.

(** The merge of the code and the merge of the specification hold the same
    value under every key. *)
Lemma spread_object_alike (held v : value) :
  well_formed held -> well_formed v ->
  (exists proto props, held = VObject proto props) ->
  (exists proto props, v = VObject proto props) \/ (exists f, v = VFunction f) ->
  alike (shallow_merge held v) (spread_object held v).
Proof.
  intros Wh Wv [ph [lh ->]] V.
  assert (G : forall pv lv,
             NoDup (List.map fst lv) ->
             alike (shallow_merge (VObject ph lh) (VObject pv lv))
               (spread_object (VObject ph lh) (VObject pv lv))).
  { intros pv lv Nv.
    destruct (spread_object_merges ph pv lh lv Wh Nv) as [merged [E L]].
    rewrite E. unfold shallow_merge. simpl. split; [reflexivity |].
    intros k. rewrite L, lookup_app, lookup_without. unfold has_key.
    destruct (lookup k lv); [reflexivity |].
    destruct (lookup k lh); reflexivity. }
  destruct V as [[pv [lv ->]] | [f ->]].
  - apply G. exact Wv.
  - apply (G [] [] (NoDup_nil _)).
Qed.

(** Where the table of [concat] has a row, a held value and an argument
    of one kind, both containers follow it: big integers and numbers are
    added, strings and arrays concatenated with the receiver's part first,
    booleans and-ed, and a held object is merged with an object or a
    function into a new object in which every key of the argument holds
    the argument's value and every other key the receiver's. *)
Theorem concat_follows_the_table {S : Type} `{Host S} (held v r : value)
    (s : S) :
  well_formed held -> well_formed v ->
  combine held v = Some r ->
  exists r',
    alike r r'
    /\ Optional.concat (Optional.mk held) v s = (Ok (Optional.mk r'), s)
    /\ Result.concat (Result.mk held) v s = (Ok (Result.mk r'), s).
Proof.
  intros Wh Wv C.
  assert (D : exists r', alike r r'
                         /\ absent held = false
                         /\ concat_dispatch held v s = (Ok r', s)).
  { destruct v; cbn [combine] in C; try discriminate C;
      destruct held; cbn [combine] in C; try discriminate C;
      inversion C; subst; clear C;
      try (eexists; split; [apply alike_refl |];
           split; reflexivity).
    - exists (VBoolean (b0 && b)). split; [reflexivity |].
      split; [reflexivity |]. destruct b0, b; reflexivity.
    - eexists. split; [| split; reflexivity].
      apply spread_object_alike; try assumption; eauto.
    - eexists. split; [| split; reflexivity].
      apply spread_object_alike; try assumption; eauto. }
  destruct D as [r' [A [P E]]]. exists r'.
  rewrite Optional_concat_spec, Result_concat_spec, P.
  unfold bindM. rewrite E. repeat split. exact A.
Qed.

(** [{a: 1, b: 2}] and [{b: 3}]: the merged object holds 3 under [b]. *)
Lemma concat_follows_the_table_witness :
  exists r',
    alike (VObject [Builtin cObject] [("a", VNumber 1); ("b", VNumber 3)]) r'
    /\ Optional.concat (H := plain_host unit)
         (Optional.mk (VObject [Builtin cObject]
                         [("a", VNumber 1); ("b", VNumber 2)]))
         (VObject [Builtin cObject] [("b", VNumber 3)]) tt
       = (Ok (Optional.mk r'), tt)
    /\ Result.concat (H := plain_host unit)
         (Result.mk (VObject [Builtin cObject]
                       [("a", VNumber 1); ("b", VNumber 2)]))
         (VObject [Builtin cObject] [("b", VNumber 3)]) tt
       = (Ok (Result.mk r'), tt).
Proof.
  apply (@concat_follows_the_table unit (plain_host unit)
           (VObject [Builtin cObject] [("a", VNumber 1); ("b", VNumber 2)])
           (VObject [Builtin cObject] [("b", VNumber 3)])
           (VObject [Builtin cObject] [("a", VNumber 1); ("b", VNumber 3)])
           tt).
  - simpl. repeat constructor; simpl; intuition discriminate.
  - simpl. repeat constructor; simpl; intuition discriminate.
  - reflexivity.
Defined.
